(** * WeeklyPlanner: the task board and the swipe gesture handlers

    A shallow embedding of the script part of
    [src/components/WeeklyPlanner.svelte]: the eight day buckets, the four
    operations that talk to the remote store ([addTask], [deleteTask],
    [toggleTask], [moveTask], [saveTaskEdit]) and the touch handlers
    ([handleTouchStart], [handleTouchMove], [handleTouchEnd],
    [resetTaskSwipe]).

    Modelling choices, all read off the source:
    - a JavaScript [number] is a binary64 float ([PrimFloat.float]);
    - [Task] objects live in an object store and the day buckets hold
      references to them, because the handlers receive a [task] reference
      and mutate the object in place;
    - an [async] function is split at its single [await fetch(...)]: the
      part before it runs at the call, the part after it is a continuation
      applied to the state current when the response arrives;
    - [setTimeout] appends to a queue of scheduled callbacks;
    - a run of the page keeps the list of the calls suspended at their
      [await]; responses arrive in any order. *)

From Stdlib Require Import ZArith Lia Ascii String.
From Stdlib Require Import Floats.PrimFloat Floats.SpecFloat Floats.FloatOps Floats.FloatAxioms.
From stdpp Require Import gmap strings list.

(** ** JavaScript numbers: the order of binary64 values *)

Module Number.

Local Open Scope Z_scope.

(** Every non-NaN value gets a key in [Z * Z * Z], ordered
    lexicographically: the class (-2 for -Infinity, -1 for a negative
    finite value, 0 for both zeros, 1 for a positive finite value, 2 for
    +Infinity), then exponent and mantissa, negated for negative values.
    [SFcompare] is the comparison of keys. *)
Definition key (f : spec_float) : option (Z * Z * Z) :=
  match f with
  | S754_nan => None
  | S754_zero _ => Some (0, 0, 0)
  | S754_infinity s => Some (if s then -2 else 2, 0, 0)
  | S754_finite s m e =>
      Some (if s then (-1, - e, - Z.pos m) else (1, e, Z.pos m))
  end.

Definition key_lt (a b : Z * Z * Z) : Prop :=
  let '(a1, a2, a3) := a in
  let '(b1, b2, b3) := b in
  a1 < b1 \/ (a1 = b1 /\ (a2 < b2 \/ (a2 = b2 /\ a3 < b3))).

Definition key_le (a b : Z * Z * Z) : Prop :=
  let '(a1, a2, a3) := a in
  let '(b1, b2, b3) := b in
  a1 < b1 \/ (a1 = b1 /\ (a2 < b2 \/ (a2 = b2 /\ a3 <= b3))).

Definition key_of (x : float) : option (Z * Z * Z) := key (Prim2SF x).

(** [x < y] and [x <= y] as propositions on keys. *)
Definition lt (x y : float) : Prop :=
  exists a b, key_of x = Some a /\ key_of y = Some b /\ key_lt a b.

Definition le (x y : float) : Prop :=
  exists a b, key_of x = Some a /\ key_of y = Some b /\ key_le a b.

(** JavaScript's ToBoolean on a number: 0, -0 and NaN are falsy. *)
Definition to_boolean (x : float) : bool :=
  negb (PrimFloat.eqb x 0) && PrimFloat.eqb x x.

(** [x || 0] for an optional number field ([undefined] is falsy). *)
Definition or_zero (x : option float) : float :=
  match x with
  | Some v => if to_boolean v then v else 0%float
  | None => 0%float
  end.

End Number.


(** ** Strings: [String.prototype.trim]

    A string is a sequence of code units below 256; the white space and line
    terminator code units in that range are TAB, LF, VT, FF, CR, SP and
    NBSP. *)

Module Str.

Definition is_white_space (c : ascii) : bool :=
  let n := N_of_ascii c in
  ((n =? 9) || (n =? 10) || (n =? 11) || (n =? 12) || (n =? 13)
   || (n =? 32) || (n =? 160))%N.

Fixpoint trimStart (s : string) : string :=
  match s with
  | EmptyString => EmptyString
  | String c r => if is_white_space c then trimStart r else s
  end.

Fixpoint trimEnd (s : string) : string :=
  match s with
  | EmptyString => EmptyString
  | String c r =>
      match trimEnd r with
      | EmptyString => if is_white_space c then EmptyString else String c EmptyString
      | r' => String c r'
      end
  end.

Definition trim (s : string) : string := trimEnd (trimStart s).

End Str.

(** ** Data model *)

(** A reference to a [Task] object. *)
Abbreviation loc := nat.

(** [type Task]: the three persistent fields and the optional transient
    ones ([undefined] is [None]). *)
Record Task := mkTask {
  id : string;
  description : string;
  completed : bool;
  popoverOpen : option bool;
  isEditing : option bool;
  editingText : option string;
  swipeX : option float;
  isSwipeActive : option bool;
  showMoveOptions : option bool
}.

(** [type Day]; [tasks] holds references to the task objects. *)
Record Day := mkDay {
  name : string;
  tasks : list loc;
  newTaskDescription : string;
  dayBgColor : string
}.

(** The callback handed to [setTimeout] in [handleTouchEnd]:
    [() => void deleteTask(dayIndex, task.id)] with its delay. *)
Record Timer := mkTimer {
  delay : Z;
  timer_dayIndex : nat;
  timer_task : loc
}.

(** The component's variables, the object store and the timer queue. *)
Record State := mkState {
  days : list Day;
  heap : list Task;
  taskHoverState : gmap string bool;
  touchStartX : float;
  touchStartY : float;
  isSwiping : bool;
  timers : list Timer
}.

Definition swipeThreshold : float := 80.
Definition deleteThreshold : float := 120.
Definition moveThreshold : float := (-80)%float.

(** The literal [0.2] denotes the binary64 value nearest to one fifth. *)
Definition resistance : float := 0x1.999999999999ap-3%float.

Definition warmGradient : list string :=
  ["#FFF4E6"; "#FFE8CC"; "#FFD4A3"; "#F4C2A1";
   "#E8B4A0"; "#D4A29C"; "#C8958F"; "#B8857A"]%string.

Definition initial_days : list Day :=
  zip_with (fun n c => mkDay n [] "" c)
    ["Monday"; "Tuesday"; "Wednesday"; "Thursday";
     "Friday"; "Saturday"; "Sunday"; "Someday"]%string
    warmGradient.

Definition initial_state : State :=
  mkState initial_days [] ∅ 0%float 0%float false [].

(** *** Field assignment *)

Definition set_description (v : string) (t : Task) : Task :=
  mkTask (id t) v (completed t) (popoverOpen t) (isEditing t) (editingText t)
         (swipeX t) (isSwipeActive t) (showMoveOptions t).
Definition set_completed (v : bool) (t : Task) : Task :=
  mkTask (id t) (description t) v (popoverOpen t) (isEditing t) (editingText t)
         (swipeX t) (isSwipeActive t) (showMoveOptions t).
Definition set_popoverOpen (v : option bool) (t : Task) : Task :=
  mkTask (id t) (description t) (completed t) v (isEditing t) (editingText t)
         (swipeX t) (isSwipeActive t) (showMoveOptions t).
Definition set_isEditing (v : option bool) (t : Task) : Task :=
  mkTask (id t) (description t) (completed t) (popoverOpen t) v (editingText t)
         (swipeX t) (isSwipeActive t) (showMoveOptions t).
Definition set_editingText (v : option string) (t : Task) : Task :=
  mkTask (id t) (description t) (completed t) (popoverOpen t) (isEditing t) v
         (swipeX t) (isSwipeActive t) (showMoveOptions t).
Definition set_swipeX (v : option float) (t : Task) : Task :=
  mkTask (id t) (description t) (completed t) (popoverOpen t) (isEditing t)
         (editingText t) v (isSwipeActive t) (showMoveOptions t).
Definition set_isSwipeActive (v : option bool) (t : Task) : Task :=
  mkTask (id t) (description t) (completed t) (popoverOpen t) (isEditing t)
         (editingText t) (swipeX t) v (showMoveOptions t).
Definition set_showMoveOptions (v : option bool) (t : Task) : Task :=
  mkTask (id t) (description t) (completed t) (popoverOpen t) (isEditing t)
         (editingText t) (swipeX t) (isSwipeActive t) v.

Definition set_tasks (v : list loc) (d : Day) : Day :=
  mkDay (name d) v (newTaskDescription d) (dayBgColor d).
Definition set_newTaskDescription (v : string) (d : Day) : Day :=
  mkDay (name d) (tasks d) v (dayBgColor d).

Definition set_days (v : list Day) (s : State) : State :=
  mkState v (heap s) (taskHoverState s) (touchStartX s) (touchStartY s)
          (isSwiping s) (timers s).
Definition set_heap (v : list Task) (s : State) : State :=
  mkState (days s) v (taskHoverState s) (touchStartX s) (touchStartY s)
          (isSwiping s) (timers s).
Definition set_taskHoverState (v : gmap string bool) (s : State) : State :=
  mkState (days s) (heap s) v (touchStartX s) (touchStartY s)
          (isSwiping s) (timers s).
Definition set_touchStart (x y : float) (s : State) : State :=
  mkState (days s) (heap s) (taskHoverState s) x y (isSwiping s) (timers s).
Definition set_isSwiping (v : bool) (s : State) : State :=
  mkState (days s) (heap s) (taskHoverState s) (touchStartX s) (touchStartY s)
          v (timers s).
Definition set_timers (v : list Timer) (s : State) : State :=
  mkState (days s) (heap s) (taskHoverState s) (touchStartX s) (touchStartY s)
          (isSwiping s) v.

(** *** The object store *)

#[global] Instance Task_inhabited : Inhabited Task :=
  populate (mkTask "" "" false None None None None None None).

(** Reading through a reference. *)
Definition get (task : loc) (s : State) : Task := heap s !!! task.

(** [task.f = v]: assignment to a field of the referenced object. *)
Definition mutate (f : Task -> Task) (task : loc) (s : State) : State :=
  set_heap (alter f task (heap s)) s.

(** The object literal that [addTask] and [moveTask] push. *)
Definition fresh_task (i d : string) (c : bool) : Task :=
  mkTask i d c (Some false) (Some false) (Some ""%string)
         (Some 0%float) (Some false) (Some false).

(** [days[dayIndex].tasks.push(obj)]: [obj] becomes a new object of the
    store and its reference is appended to the bucket. *)
Definition push_task (dayIndex : nat) (obj : Task) (s : State) : State :=
  let l := length (heap s) in
  set_days (alter (fun d => set_tasks (tasks d ++ [l]) d) dayIndex (days s))
           (set_heap (heap s ++ [obj]) s).

(** [days[dayIndex].tasks = days[dayIndex].tasks.filter((t) => t.id !== taskId)] *)
Definition remove_id (dayIndex : nat) (taskId : string) (s : State) : State :=
  set_days
    (alter (fun d => set_tasks (filter (fun l => id (get l s) <> taskId) (tasks d)) d)
           dayIndex (days s))
    s.

(** An optional boolean used as a condition. *)
Definition truthy (b : option bool) : bool := default false b.

(** The tasks of a bucket, read through the references, and the whole
    board. *)
Definition bucket (s : State) (d : Day) : list Task :=
  (fun l => get l s) <$> tasks d.
Definition board (s : State) : list (list Task) := bucket s <$> days s.

(** The ids stored in the buckets, bucket after bucket. *)
Definition all_ids (s : State) : list string :=
  id <$> concat (board s).

(** ** The remote store *)

Inductive Method := GET | POST | PUT | DELETE.

(** The objects passed to [JSON.stringify]. *)
Inductive Body :=
| CreateBody (text day : string)
| CompletedBody (completed : bool) (completed_time : option string)
| DayBody (day : string)
| TextBody (text : string).

Record Request := mkRequest {
  method : Method;
  url : string;
  body : option Body
}.

(** What [await fetch(...)] yields. [NetworkError]: the promise rejects.
    [HttpError]: [res.ok] is false. [HttpOk json]: [res.ok] is true and
    [json] describes [await res.json()]: [None] when it rejects or yields
    a value without properties, [Some i] otherwise, where [i] is the
    [id] property rendered by [toString], if it is truthy. *)
Inductive Response :=
| NetworkError
| HttpError
| HttpOk (json : option (option string)).

(** An [async] function, split at its [await fetch(...)]. *)
Inductive Async :=
| Returned (s : State)
| Threw (s : State)
| Awaiting (s : State) (req : Request) (k : Response -> State -> State).

Definition request_of (a : Async) : option Request :=
  match a with
  | Awaiting _ req _ => Some req
  | _ => None
  end.

(** The state left by the synchronous part of the call. *)
Definition state_at_call (a : Async) : State :=
  match a with
  | Returned s | Threw s | Awaiting s _ _ => s
  end.

(** The effect of the response [res] arriving when the state is [s]. *)
Definition resume (a : Async) (res : Response) (s : State) : State :=
  match a with
  | Awaiting _ _ k => k res s
  | _ => s
  end.

(** Call and response with nothing in between. *)
Definition run (op : State -> Async) (res : Response) (s : State) : State :=
  let a := op s in resume a res (state_at_call a).

(** ** The operations of the board *)

Section Operations.

Local Open Scope string_scope.

(** The block of [addTask] guarded by [res.ok]. [uuid] is the value
    [crypto.randomUUID()] returns if it is called. *)
Definition addTask_ok (uuid : string) (dayIndex : nat) (desc : string)
           (json : option (option string)) (s : State) : State :=
  match json with
  | Some responseData_id =>
      let newId := default uuid responseData_id in
      let s1 := push_task dayIndex (fresh_task newId desc false) s in
      set_days (alter (set_newTaskDescription "") dayIndex (days s1)) s1
  | None => s
  end.

Definition addTask (uuid : string) (dayIndex : nat) (s : State) : Async :=
  match days s !! dayIndex with
  | None => Threw s
  | Some dayObj =>
      let desc := Str.trim (newTaskDescription dayObj) in
      if decide (desc = "") then Returned s
      else
        Awaiting s
          (mkRequest POST "/api/tasks" (Some (CreateBody desc (name dayObj))))
          (fun res s =>
             match res with
             | HttpOk json => addTask_ok uuid dayIndex desc json s
             | _ => s
             end)
  end.

(** The block of [deleteTask] guarded by [res.ok]. *)
Definition deleteTask_ok (dayIndex : nat) (taskId : string) (s : State) : State :=
  match days s !! dayIndex with
  | None => s
  | Some _ =>
      set_taskHoverState (delete taskId (taskHoverState s))
                         (remove_id dayIndex taskId s)
  end.

Definition deleteTask (dayIndex : nat) (taskId : string) (s : State) : Async :=
  Awaiting s
    (mkRequest DELETE ("/api/tasks/" ++ taskId) None)
    (fun res s =>
       match res with
       | HttpOk _ => deleteTask_ok dayIndex taskId s
       | _ => s
       end).

(** [now] is the value of [new Date().toISOString()]. *)
Definition toggleTask (now : string) (dayIndex : nat) (taskId : string)
           (s : State) : Async :=
  match days s !! dayIndex with
  | None => Threw s
  | Some d =>
      match List.find (fun l => bool_decide (id (get l s) = taskId)) (tasks d) with
      | None => Returned s
      | Some taskObj =>
          let newCompleted := negb (completed (get taskObj s)) in
          Awaiting s
            (mkRequest PUT ("/api/tasks/" ++ taskId)
               (Some (CompletedBody newCompleted
                        (if newCompleted then Some now else None))))
            (fun res s =>
               match res with
               | HttpOk _ => mutate (set_completed newCompleted) taskObj s
               | _ => s
               end)
      end
  end.

(** The block of [moveTask] guarded by [res.ok]: remove from the old day,
    add to the new day. *)
Definition moveTask_ok (fromDayIndex : nat) (task : loc) (toDayIndex : nat)
           (s : State) : State :=
  match days s !! fromDayIndex with
  | None => s
  | Some _ =>
      let s1 := remove_id fromDayIndex (id (get task s)) s in
      match days s1 !! toDayIndex with
      | None => s1
      | Some _ =>
          push_task toDayIndex
            (fresh_task (id (get task s1)) (description (get task s1))
                        (completed (get task s1)))
            s1
      end
  end.

Definition moveTask (fromDayIndex : nat) (task : loc) (toDayIndex : nat)
           (s : State) : Async :=
  if decide (fromDayIndex = toDayIndex) then Returned s
  else
    match days s !! toDayIndex with
    | None => Returned s
    | Some toDay =>
        Awaiting s
          (mkRequest PUT ("/api/tasks/" ++ id (get task s))
                     (Some (DayBody (name toDay))))
          (fun res s =>
             match res with
             | HttpOk _ => moveTask_ok fromDayIndex task toDayIndex s
             | _ => s
             end)
    end.

Definition startEditingTask (task : loc) (s : State) : State :=
  mutate (fun t => set_editingText (Some (description t)) (set_isEditing (Some true) t))
         task s.

(** [task.isEditing = false; task.editingText = ''] *)
Definition leave_edit (task : loc) (s : State) : State :=
  mutate (set_editingText (Some "")) task (mutate (set_isEditing (Some false)) task s).

Definition saveTaskEdit (task : loc) (s : State) : Async :=
  match editingText (get task s) with
  | None => Returned (leave_edit task s)
  | Some text =>
      if decide (Str.trim text = "") then Returned (leave_edit task s)
      else
        let newText := Str.trim text in
        Awaiting s
          (mkRequest PUT ("/api/tasks/" ++ id (get task s)) (Some (TextBody newText)))
          (fun res s =>
             leave_edit task
               match res with
               | HttpOk _ => mutate (set_description newText) task s
               | _ => s
               end)
  end.

Definition cancelTaskEdit (task : loc) (s : State) : State := leave_edit task s.

End Operations.

(** ** The swipe gesture handlers *)

Record Touch := mkTouch { clientX : float; clientY : float }.

Record TouchEvent := mkTouchEvent { touches : list Touch }.

(** How an event handler ends: normally, or with the [TypeError] raised by
    reading [clientX] of [undefined] when [e.touches] is empty. *)
Inductive Completion :=
| Normal (s : State)
| TypeError (s : State).

Definition state_of (c : Completion) : State :=
  match c with
  | Normal s | TypeError s => s
  end.

Section Gestures.

Local Open Scope float_scope.

Definition handleTouchStart (e : TouchEvent) (task : loc) (s : State) : Completion :=
  if truthy (isEditing (get task s)) then Normal s
  else
    match touches e !! 0%nat with
    | None => TypeError s
    | Some touch =>
        Normal (mutate (set_isSwipeActive (Some true)) task
                  (set_isSwiping false
                     (set_touchStart (clientX touch) (clientY touch) s)))
    end.

(** The offset with resistance beyond the two limits. *)
Definition resist (deltaX : float) : float :=
  if deleteThreshold <? deltaX then
    deleteThreshold + (deltaX - deleteThreshold) * resistance
  else if deltaX <? moveThreshold * 1.5 then
    moveThreshold * 1.5 + (deltaX - moveThreshold * 1.5) * resistance
  else deltaX.

(** The value of [isSwiping] after the horizontal-swipe check. *)
Definition lock_check (deltaX deltaY : float) (swiping : bool) : bool :=
  if negb swiping && (10 <? abs deltaX) then
    if abs deltaY <? abs deltaX then true else swiping
  else swiping.

Definition handleTouchMove (e : TouchEvent) (task : loc) (s : State) : Completion :=
  if negb (truthy (isSwipeActive (get task s))) || truthy (isEditing (get task s))
  then Normal s
  else
    match touches e !! 0%nat with
    | None => TypeError s
    | Some touch =>
        let deltaX := clientX touch - touchStartX s in
        let deltaY := clientY touch - touchStartY s in
        let s1 := set_isSwiping (lock_check deltaX deltaY (isSwiping s)) s in
        if isSwiping s1 then
          Normal (mutate (set_swipeX (Some (resist deltaX))) task s1)
        else Normal s1
    end.

Definition handleTouchEnd (e : TouchEvent) (task : loc) (dayIndex : nat)
           (s : State) : State :=
  if negb (truthy (isSwipeActive (get task s))) || truthy (isEditing (get task s))
  then s
  else
    let swipeDistance := Number.or_zero (swipeX (get task s)) in
    let s1 := set_isSwiping false (mutate (set_isSwipeActive (Some false)) task s) in
    if deleteThreshold <=? swipeDistance then
      set_timers (timers s1 ++ [mkTimer 200 dayIndex task])
                 (mutate (set_swipeX (Some 300)) task s1)
    else if swipeDistance <=? moveThreshold then
      mutate (set_swipeX (Some moveThreshold)) task
             (mutate (set_showMoveOptions (Some true)) task s1)
    else
      mutate (set_showMoveOptions (Some false)) task
             (mutate (set_swipeX (Some 0)) task s1).

Definition resetTaskSwipe (task : loc) (s : State) : State :=
  mutate (set_isSwipeActive (Some false)) task
    (mutate (set_showMoveOptions (Some false)) task
       (mutate (set_swipeX (Some 0)) task s)).

Definition handleMoveFromSwipe (fromDayIndex : nat) (task : loc) (toDayIndex : nat)
           (s : State) : Async :=
  moveTask fromDayIndex task toDayIndex (resetTaskSwipe task s).

(** The [n]-th scheduled callback runs: it leaves the queue and calls
    [deleteTask(dayIndex, task.id)]. *)
Definition fireTimer (n : nat) (s : State) : option Async :=
  match timers s !! n with
  | None => None
  | Some tm =>
      Some (deleteTask (timer_dayIndex tm) (id (get (timer_task tm) s))
                       (set_timers (delete n (timers s)) s))
  end.

(** The events of one gesture on a task, in order. *)
Inductive GestureEvent :=
| TouchStart (e : TouchEvent)
| TouchMove (e : TouchEvent)
| TouchEnd (e : TouchEvent).

Definition dispatch (task : loc) (dayIndex : nat) (ev : GestureEvent) (s : State) : State :=
  match ev with
  | TouchStart e => state_of (handleTouchStart e task s)
  | TouchMove e => state_of (handleTouchMove e task s)
  | TouchEnd e => handleTouchEnd e task dayIndex s
  end.

Definition gesture (task : loc) (dayIndex : nat) (evs : list GestureEvent)
           (s : State) : State :=
  foldl (fun s ev => dispatch task dayIndex ev s) s evs.

Definition touch_at (x y : float) : TouchEvent := mkTouchEvent [mkTouch x y].

End Gestures.

(** ** Input bindings and sample states *)

(** [bind:value={day.newTaskDescription}] *)
Definition input_newTaskDescription (dayIndex : nat) (text : string) (s : State) : State :=
  set_days (alter (set_newTaskDescription text) dayIndex (days s)) s.

(** [bind:value={task.editingText}] *)
Definition input_editingText (task : loc) (text : string) (s : State) : State :=
  mutate (set_editingText (Some text)) task s.

(** [bind:open={task.popoverOpen}], and [task.popoverOpen = false] in the
    click handler of the move buttons. *)
Definition bind_popoverOpen (task : loc) (v : bool) (s : State) : State :=
  mutate (set_popoverOpen (Some v)) task s.

(** Monday holds task "42" ("Call Bob"), created through [addTask]. *)
Definition sample_one : State :=
  run (addTask "uuid-1" 0) (HttpOk (Some (Some "42"%string)))
      (input_newTaskDescription 0 "Call Bob" initial_state).

(** Monday holds "42" and "43". *)
Definition sample_two : State :=
  run (addTask "uuid-2" 0) (HttpOk (Some (Some "43"%string)))
      (input_newTaskDescription 0 "  Buy milk " sample_one).

(** ** Loading the board: [onMount] *)

(** [row.completed] is a boolean or a number. *)
Inductive BoolOrNumber :=
| JBool (b : bool)
| JNumber (x : float).

(** [Boolean(row.completed)] *)
Definition to_Boolean (c : BoolOrNumber) : bool :=
  match c with
  | JBool b => b
  | JNumber x => Number.to_boolean x
  end.

(** A row of the GET payload: [row_id] is the [id] property rendered by
    [toString] if it is truthy, [row_text] the [text] property if it is
    truthy. *)
Record Row := mkRow {
  row_id : option string;
  row_text : option string;
  row_completed : BoolOrNumber
}.

(** What [await fetch(...)] and [await res.json()] yield in [onMount].
    [GetNetworkError]: [fetch] rejects. [GetHttpError]: [res.ok] is false.
    [GetOk payload]: [res.ok] is true; [payload] is [None] when [res.json()]
    rejects, yields [null], or yields a value whose mapping throws, and the
    array of rows otherwise. *)
Inductive GetResponse :=
| GetNetworkError
| GetHttpError
| GetOk (payload : option (list Row)).

(** The object literal built for a row; [uuid] is the value of
    [crypto.randomUUID()] if it is called for this row. *)
Definition task_of_row (uuid : string) (row : Row) : Task :=
  mkTask (default uuid (row_id row)) (default ""%string (row_text row))
         (to_Boolean (row_completed row))
         (Some false) (Some false) (Some ""%string)
         (Some 0%float) (Some false) (Some false).

(** [days[i].tasks = objs]: the objects of a new array enter the store and
    the bucket holds their references. *)
Definition assign_tasks (i : nat) (objs : list Task) (s : State) : State :=
  set_days (alter (set_tasks (seq (length (heap s)) (length objs))) i (days s))
           (set_heap (heap s ++ objs) s).

(** One iteration of the loop of [onMount]; [uuid k] is the value of
    [crypto.randomUUID()] for row [k]. *)
Definition load_day (uuid : nat -> string) (i : nat) (res : GetResponse)
           (s : State) : State :=
  match res with
  | GetHttpError => s
  | GetNetworkError => assign_tasks i [] s
  | GetOk None => assign_tasks i [] s
  | GetOk (Some payload) =>
      assign_tasks i (imap (fun k row => task_of_row (uuid k) row) payload) s
  end.

(** The loop of [onMount] over the days, with the response of each day. *)
Definition onMount (uuid : nat -> nat -> string) (responses : nat -> GetResponse)
           (s : State) : State :=
  foldl (fun s i => load_day (uuid i) i (responses i) s) s
        (seq 0 (length (days s))).

(** ** Keyboard and mouse handlers *)

Record KeyboardEvent := mkKeyboardEvent { key : string }.

Definition handleTaskEditKeydown (e : KeyboardEvent) (task : loc) (s : State) : Async :=
  if decide (key e = "Enter"%string) then saveTaskEdit task s
  else if decide (key e = "Escape"%string) then Returned (cancelTaskEdit task s)
  else Returned s.

Definition handleInputKeydown (uuid : string) (e : KeyboardEvent) (dayIndex : nat)
           (s : State) : Async :=
  if decide (key e = "Enter"%string) then addTask uuid dayIndex s
  else Returned s.

(** [on:mouseenter={() => (taskHoverState[task.id] = true)}] *)
Definition mouseenter (task : loc) (s : State) : State :=
  set_taskHoverState (<[id (get task s) := true]> (taskHoverState s)) s.

(** [on:mouseleave={() => (taskHoverState[task.id] = false)}] *)
Definition mouseleave (task : loc) (s : State) : State :=
  set_taskHoverState (<[id (get task s) := false]> (taskHoverState s)) s.

(** The condition under which the delete button and the move popover of a
    task are rendered:
    [(taskHoverState[task.id] && !task.isEditing) || task.popoverOpen]. *)
Definition actions_shown (task : loc) (s : State) : bool :=
  (default false (taskHoverState s !! id (get task s))
   && negb (truthy (isEditing (get task s))))
  || truthy (popoverOpen (get task s)).

(** ** The theme toggle of [+layout.svelte] *)

Module Layout.

(** The component's [themeIsDark], whether the class list of the root
    element contains ['dark'], and the ['theme'] item of [localStorage]. *)
Record Theme := mkTheme {
  themeIsDark : bool;
  root_dark : bool;
  stored_theme : option string
}.

(** [themeIsDark = document.documentElement.classList.contains('dark')] *)
Definition onMount (t : Theme) : Theme :=
  mkTheme (root_dark t) (root_dark t) (stored_theme t).

Definition toggleTheme (t : Theme) : Theme :=
  let themeIsDark' := negb (themeIsDark t) in
  mkTheme themeIsDark' themeIsDark'
          (Some (if themeIsDark' then "dark" else "light")%string).

End Layout.

(** ** Views, predicates and sample states *)

(** A gesture on the first task of Monday has started at the origin. *)
Definition sample_started : State :=
  state_of (handleTouchStart (touch_at 0 0) 0 sample_one).

(** The gesture of scenario 4 up to its last move: displacement samples
    0, 50 and 130 on the first task of Monday. *)
Definition scenario4_moves : list GestureEvent :=
  [TouchStart (touch_at 0 0); TouchMove (touch_at 0 0);
   TouchMove (touch_at 50 0); TouchMove (touch_at 130 0)].

(** The displacement of the first touch of [e] is not a horizontal swipe:
    [|deltaX| <= 10] or [|deltaX| <= |deltaY|]. *)
Definition not_horizontal (s : State) (e : TouchEvent) : Prop :=
  forall touch, touches e !! 0%nat = Some touch ->
    let deltaX := (clientX touch - touchStartX s)%float in
    let deltaY := (clientY touch - touchStartY s)%float in
    (abs deltaX <=? 10)%float = true \/ (abs deltaX <=? abs deltaY)%float = true.

(** The gesture state that the handlers read for a task: three fields of
    the task object, and the component's lock flag and start position. *)
Definition gesture_state (task : loc) (s : State)
  : option float * option bool * option bool * bool * float * float :=
  (swipeX (get task s), isSwipeActive (get task s), showMoveOptions (get task s),
   isSwiping s, touchStartX s, touchStartY s).

(** Task "43" is locked at offset 50 when a second touch starts on task
    "42". *)
Definition sample_locked_43 : State :=
  gesture 1 0 [TouchStart (touch_at 0 0); TouchMove (touch_at 50 0)] sample_two.

(** The gesture of scenario 4 has ended: the delete of task "42" is on the
    timer queue. *)
Definition sample_pending_delete : State :=
  handleTouchEnd (touch_at 130 0) 0 0 (gesture 0 0 scenario4_moves sample_one).

(** The persistent part of a task, and of the board. *)
Definition persistent (t : Task) : string * string * bool :=
  (id t, description t, completed t).

Definition stored (s : State) : list (list (string * string * bool)) :=
  fmap (M:=list) persistent <$> board s.

(** Task "42" is being edited and the edit field holds only blanks. *)
Definition sample_blank_edit : State :=
  input_editingText 0 "   " (startEditingTask 0 sample_one).

(** A request fails: the network error or the non-success status. *)
Definition failed (res : Response) : Prop := res = NetworkError \/ res = HttpError.

(** Task "42" is being edited and the edit field holds a new text. *)
Definition sample_edit : State :=
  input_editingText 0 "Call Bobby" (startEditingTask 0 sample_one).

(** The reference lists of the buckets. *)
Definition refs (s : State) : list (list loc) := tasks <$> days s.

(** The ids that the reference lists [tss] show through the object store
    [h]. *)
Definition ids_in (h : list Task) (tss : list (list loc)) : list string :=
  concat (fmap (M:=list) (fun l => id (h !!! l)) <$> tss).

(** Every reference held by a bucket denotes an object of the store. *)
Definition allocated (s : State) : Prop :=
  forall ts l, ts ∈ refs s -> l ∈ ts -> l < length (heap s).

(** The handlers that talk to no store: input bindings, edit mode, the
    hover state, the move popover and the gesture handlers. *)
Inductive ui_step (s : State) : State -> Prop :=
| ui_input_new dayIndex text : ui_step s (input_newTaskDescription dayIndex text s)
| ui_start_edit task : ui_step s (startEditingTask task s)
| ui_input_edit task text : ui_step s (input_editingText task text s)
| ui_cancel_edit task : ui_step s (cancelTaskEdit task s)
| ui_touch_start e task : ui_step s (state_of (handleTouchStart e task s))
| ui_touch_move e task : ui_step s (state_of (handleTouchMove e task s))
| ui_touch_end e task dayIndex : ui_step s (handleTouchEnd e task dayIndex s)
| ui_reset_swipe task : ui_step s (resetTaskSwipe task s)
| ui_mouseenter task : ui_step s (mouseenter task s)
| ui_mouseleave task : ui_step s (mouseleave task s)
| ui_popover task v : ui_step s (bind_popoverOpen task v s).

(** ** Requests in flight *)

(** The calls that send a request to the store: the five operations, and
    the callback scheduled by [handleTouchEnd] when it runs.
    [handleMoveFromSwipe] is [resetTaskSwipe] followed by [moveTask], and the
    keyboard handlers call [addTask], [saveTaskEdit] or [cancelTaskEdit]. *)
Inductive Op :=
| Create (uuid : string) (dayIndex : nat)
| Toggle (now : string) (dayIndex : nat) (taskId : string)
| Rename (task : loc)
| Move (fromDayIndex : nat) (task : loc) (toDayIndex : nat)
| Delete (dayIndex : nat) (taskId : string)
| Fire (n : nat).

Definition call (op : Op) (s : State) : Async :=
  match op with
  | Create uuid dayIndex => addTask uuid dayIndex s
  | Toggle now dayIndex taskId => toggleTask now dayIndex taskId s
  | Rename task => saveTaskEdit task s
  | Move fromDayIndex task toDayIndex => moveTask fromDayIndex task toDayIndex s
  | Delete dayIndex taskId => deleteTask dayIndex taskId s
  | Fire n => default (Returned s) (fireTimer n s)
  end.

(** A call suspended at its [await fetch(...)]: the operation and the state
    it was called in, from which its closure took its values. *)
Record InFlight := mkInFlight {
  flight_op : Op;
  flight_state : State
}.

Definition suspended (f : InFlight) : Async := call (flight_op f) (flight_state f).

(** The id of the task that a move in flight relocates, and the id that a
    delete in flight removes. *)
Definition moved_id (f : InFlight) : option string :=
  match flight_op f with
  | Move _ task _ => Some (id (get task (flight_state f)))
  | _ => None
  end.

Definition deleted_id (f : InFlight) : option string :=
  match flight_op f with
  | Delete _ taskId => Some taskId
  | Fire n =>
      (fun tm => id (get (timer_task tm) (flight_state f)))
        <$> timers (flight_state f) !! n
  | _ => None
  end.

Definition moving (p : list InFlight) : list string := omap moved_id p.
Definition deleting (p : list InFlight) : list string := omap deleted_id p.

(** Day [dayIndex] shows the task object [task]. *)
Definition shown (s : State) (dayIndex : nat) (task : loc) : Prop :=
  exists d, days s !! dayIndex = Some d /\ task ∈ tasks d.

(** The page calls [moveTask] from the row of [task] in the list of day
    [fromDayIndex]. *)
Definition from_row (op : Op) (s : State) : Prop :=
  match op with
  | Move fromDayIndex task _ => shown s fromDayIndex task
  | _ => True
  end.

(** The call [f] starts while the requests [p] are in flight, and no move
    of a task overlaps another move or a delete of the same id. *)
Definition no_conflict (f : InFlight) (p : list InFlight) : Prop :=
  (forall x, moved_id f = Some x -> (x ∉ moving p) /\ (x ∉ deleting p)) /\
  (forall x, deleted_id f = Some x -> x ∉ moving p).

(** The id that the store returns for a create (or the generated one) is
    not on the board. *)
Definition store_id_fresh (f : InFlight) (res : Response) (live : list string) : Prop :=
  match flight_op f, res with
  | Create uuid _, HttpOk (Some i) => default uuid i ∉ live
  | _, _ => True
  end.

(** The ids that day [dayIndex] shows. *)
Definition bucket_ids (s : State) (dayIndex : nat) : list string :=
  match days s !! dayIndex with
  | Some d => id <$> bucket s d
  | None => []
  end.

(** The ids that should be on the board after a confirmed delete of
    [taskId] in day [dayIndex]: [taskId] leaves if that day shows it. *)
Definition without (dayIndex : nat) (taskId : string) (s : State)
           (live : list string) : list string :=
  if bool_decide (taskId ∈ bucket_ids s dayIndex)
  then filter (fun x => x <> taskId) live
  else live.

(** The ids that should be on the board after the response [res] to [f]
    has arrived in state [s]. *)
Definition live_after (f : InFlight) (res : Response) (s : State)
           (live : list string) : list string :=
  match res with
  | HttpOk json =>
      match flight_op f with
      | Create uuid _ =>
          match json with
          | Some i => live ++ [default uuid i]
          | None => live
          end
      | Delete dayIndex taskId => without dayIndex taskId s live
      | Fire n =>
          match timers (flight_state f) !! n with
          | Some tm =>
              without (timer_dayIndex tm)
                      (id (get (timer_task tm) (flight_state f))) s live
          | None => live
          end
      | _ => live
      end
  | _ => live
  end.

(** The rows that the store returns for day [i] have pairwise distinct ids,
    and none of them is shown by another day. *)
Definition store_rows_fresh (uuid : nat -> string) (i : nat) (res : GetResponse)
           (s : State) : Prop :=
  match res with
  | GetOk (Some payload) =>
      let new := id <$> imap (fun k row => task_of_row (uuid k) row) payload in
      NoDup new /\ forall x, x ∈ new -> x ∈ all_ids s -> x ∈ bucket_ids s i
  | _ => True
  end.

(** The ids that should be on the board after the response for day [i]. *)
Definition live_after_load (uuid : nat -> string) (i : nat) (res : GetResponse)
           (s : State) (live : list string) : list string :=
  match res with
  | GetHttpError => live
  | GetNetworkError | GetOk None => filter (fun x => x ∉ bucket_ids s i) live
  | GetOk (Some payload) =>
      filter (fun x => x ∉ bucket_ids s i) live
      ++ (id <$> imap (fun k row => task_of_row (uuid k) row) payload)
  end.

(** The runs of the page from [s0]: handlers, iterations of the loading
    loop, calls and responses, in any order; a response arrives in whatever
    state the page is in by then. [reachable s0 s p live]: the page is in
    state [s], the requests [p] are in flight, and [live] are the ids that
    were on the board of [s0], were loaded or were created, and have not
    been deleted or replaced by a load. The runs are restricted in four
    ways, none of which the code enforces: a move is called with the day that
    shows the task; no move of a task overlaps another move or a delete of
    the same id; the id returned for a create is new; the rows loaded for a
    day have distinct ids that no other day shows, and no move out of that
    day is in flight when they replace its list. *)
Inductive reachable (s0 : State) : State -> list InFlight -> list string -> Prop :=
| reach_start : reachable s0 s0 [] (all_ids s0)
| reach_ui s s' p live :
    reachable s0 s p live -> ui_step s s' -> reachable s0 s' p live
| reach_load s p live uuid i res d :
    reachable s0 s p live ->
    days s !! i = Some d ->
    store_rows_fresh uuid i res s ->
    (res <> GetHttpError ->
     forall f t toDayIndex, f ∈ p -> flight_op f <> Move i t toDayIndex) ->
    reachable s0 (load_day uuid i res s) p (live_after_load uuid i res s live)
| reach_return s p live op :
    reachable s0 s p live ->
    request_of (call op s) = None ->
    reachable s0 (state_at_call (call op s)) p live
| reach_request s p live op req :
    reachable s0 s p live ->
    request_of (call op s) = Some req ->
    from_row op s ->
    no_conflict (mkInFlight op s) p ->
    reachable s0 (state_at_call (call op s)) (p ++ [mkInFlight op s]) live
| reach_response s p1 f p2 live res :
    reachable s0 s (p1 ++ f :: p2) live ->
    store_id_fresh f res live ->
    reachable s0 (resume (suspended f) res s) (p1 ++ p2) (live_after f res s live).

(** Handlers that keep the reference lists, the size of the store and
    every id. *)
Definition same_ids (s s' : State) : Prop :=
  refs s' = refs s /\ length (heap s') = length (heap s) /\
  forall l, id (get l s') = id (get l s).

(** The invariant: the references are allocated, no id is stored twice and
    the ids stored are the live ones. *)
Definition board_ok (s : State) (live : list string) : Prop :=
  allocated s /\ NoDup (all_ids s) /\ forall x, x ∈ all_ids s <-> x ∈ live.

(** What a request in flight relies on when its response arrives: the day
    of a create exists; the source day of a move still shows the task, the
    task has the id it had at the call, and the target day exists. *)
Definition in_flight_ok (s : State) (f : InFlight) : Prop :=
  is_Some (request_of (suspended f)) /\
  match flight_op f with
  | Create _ dayIndex => dayIndex < length (days s)
  | Move fromDayIndex task toDayIndex =>
      shown s fromDayIndex task /\
      id (get task s) = id (get task (flight_state f)) /\
      toDayIndex < length (days s)
  | _ => True
  end.

(** The invariant of the runs. *)
Definition config_ok (s : State) (p : list InFlight) (live : list string) : Prop :=
  board_ok s live /\
  NoDup (moving p) /\
  (forall x, x ∈ moving p -> x ∉ deleting p) /\
  Forall (in_flight_ok s) p.

(** Two moves of task "42" are called on the same board, to Tuesday and to
    Wednesday, and both are confirmed. *)
Definition sample_two_moves : State :=
  let a1 := moveTask 0 0 1 sample_one in
  let a2 := moveTask 0 0 2 (state_at_call a1) in
  resume a2 (HttpOk None) (resume a1 (HttpOk None) (state_at_call a2)).

(** The edit field of Monday holds "  Buy milk " on the board of
    [sample_one]. *)
Definition sample_typing : State :=
  input_newTaskDescription 0 "  Buy milk " sample_one.

(** The create of "Buy milk" and the move of task "42" to Tuesday are both
    called on the board of [sample_typing]; the move is confirmed first, then
    the create, for which the store returns the id "43". *)
Definition sample_overlap : State :=
  resume (addTask "uuid-2" 0 sample_typing) (HttpOk (Some (Some "43"%string)))
         (resume (moveTask 0 0 1 sample_typing) (HttpOk None) sample_typing).

(** The tasks shown for a day after its response, [old] being the tasks
    shown before. *)
Definition loaded (uuid : nat -> string) (res : GetResponse) (old : list Task)
  : list Task :=
  match res with
  | GetHttpError => old
  | GetNetworkError | GetOk None => []
  | GetOk (Some payload) => imap (fun k row => task_of_row (uuid k) row) payload
  end.

(** A gesture event other than a touch start. *)
Definition not_start (ev : GestureEvent) : Prop :=
  match ev with
  | TouchStart _ => False
  | _ => True
  end.

(** * Properties *)

(** ** The order of JavaScript numbers *)

Section NumberOrder.

Import Number.
Local Open Scope Z_scope.

Lemma compare_cont_Eq (m n : positive) :
  Pos.compare_cont Eq m n = Pos.compare m n.
Proof. reflexivity. Qed.

Lemma SFcompare_Lt_key (f g : spec_float) :
  SFcompare f g = Some Lt <->
  exists a b, key f = Some a /\ key g = Some b /\ key_lt a b.
Proof.
  split.
  - destruct f as [s|s| |s m e], g as [s'|s'| |s' m' e']; simpl;
      try discriminate; intros H; do 2 eexists;
      (split; [reflexivity|split; [reflexivity|]]);
      try (destruct s; try discriminate; try destruct s'; try discriminate;
           simpl; lia).
    destruct s, s'; try discriminate; simpl; try lia;
      rewrite compare_cont_Eq in H;
      destruct (Z.compare_spec e e'); destruct (Pos.compare_spec m m');
      simpl in H; try discriminate; lia.
  - intros (a & b & Ha & Hb & Hlt).
    destruct f as [s|s| |s m e], g as [s'|s'| |s' m' e']; simpl in *;
      try discriminate; simplify_eq; simpl in Hlt;
      try (destruct s; try destruct s'; simpl in *; (reflexivity || lia)).
    destruct s, s'; simpl in *; try reflexivity; try lia;
      rewrite compare_cont_Eq;
      destruct (Z.compare_spec e e'); destruct (Pos.compare_spec m m');
      simpl; try reflexivity; lia.
Qed.

Lemma SFcompare_Eq_key (f g : spec_float) :
  SFcompare f g = Some Eq <-> exists a, key f = Some a /\ key g = Some a.
Proof.
  split.
  - destruct f as [s|s| |s m e], g as [s'|s'| |s' m' e']; simpl;
      try discriminate; intros H;
      try (destruct s; try discriminate; try destruct s'; try discriminate;
           eexists; split; reflexivity).
    destruct s, s'; try discriminate;
      rewrite compare_cont_Eq in H;
      destruct (Z.compare_spec e e'); destruct (Pos.compare_spec m m');
      simpl in H; try discriminate; subst; eexists; split; reflexivity.
  - intros (a & Ha & Hb).
    destruct f as [s|s| |s m e], g as [s'|s'| |s' m' e']; simpl in *;
      try discriminate; rewrite <- Hb in Ha; clear Hb;
      try (destruct s; try destruct s'; simpl in *; (discriminate || reflexivity)).
    destruct s, s'; simpl in *; try discriminate;
      injection Ha as He Hm;
      assert (e' = e) as -> by lia; assert (m' = m) as -> by lia;
      now rewrite compare_cont_Eq, Z.compare_refl, Pos.compare_refl.
Qed.

Lemma ltb_lt (x y : float) : PrimFloat.ltb x y = true <-> lt x y.
Proof.
  rewrite ltb_spec. unfold SFltb, lt, key_of.
  rewrite <- SFcompare_Lt_key.
  destruct (SFcompare (Prim2SF x) (Prim2SF y)) as [[]|]; split; congruence.
Qed.

Lemma key_le_lt_eq (a b : Z * Z * Z) : key_le a b <-> key_lt a b \/ a = b.
Proof.
  destruct a as [[a1 a2] a3], b as [[b1 b2] b3]. unfold key_le, key_lt.
  split.
  - intros H. destruct (decide (a3 = b3)) as [->|]; [|lia].
    destruct (decide (a2 = b2)) as [->|]; [|lia].
    destruct (decide (a1 = b1)) as [->|]; [|lia]. now right.
  - intros [H|H]; [lia|]. injection H as -> -> ->. lia.
Qed.

Lemma leb_le (x y : float) : PrimFloat.leb x y = true <-> le x y.
Proof.
  rewrite leb_spec. unfold SFleb, le, key_of. split.
  - destruct (SFcompare (Prim2SF x) (Prim2SF y)) as [[]|] eqn:E;
      try discriminate; intros _.
    + apply SFcompare_Eq_key in E as (a & Ha & Hb).
      exists a, a. rewrite key_le_lt_eq. auto.
    + apply SFcompare_Lt_key in E as (a & b & Ha & Hb & Hlt).
      exists a, b. rewrite key_le_lt_eq. auto.
  - intros (a & b & Ha & Hb & Hle). apply key_le_lt_eq in Hle as [Hlt| ->].
    + assert (E : SFcompare (Prim2SF x) (Prim2SF y) = Some Lt)
        by (apply SFcompare_Lt_key; eauto).
      now rewrite E.
    + assert (E : SFcompare (Prim2SF x) (Prim2SF y) = Some Eq)
        by (apply SFcompare_Eq_key; eauto).
      now rewrite E.
Qed.

Lemma ltb_nlt (x y : float) : PrimFloat.ltb x y = false <-> ~ lt x y.
Proof. rewrite <- ltb_lt. destruct (PrimFloat.ltb x y); split; congruence. Qed.

Lemma leb_nle (x y : float) : PrimFloat.leb x y = false <-> ~ le x y.
Proof. rewrite <- leb_le. destruct (PrimFloat.leb x y); split; congruence. Qed.

End NumberOrder.

(** [float_order] closes goals that follow from the order of the compared
    values: comparisons become facts on keys, the keys of literals are
    computed, and linear arithmetic does the rest. *)
Ltac float_keys :=
  repeat match goal with
    | H : PrimFloat.ltb _ _ = true |- _ => apply ltb_lt in H
    | H : PrimFloat.leb _ _ = true |- _ => apply leb_le in H
    | H : PrimFloat.ltb _ _ = false |- _ => apply ltb_nlt in H
    | H : PrimFloat.leb _ _ = false |- _ => apply leb_nle in H
    | H : Number.lt _ _ |- _ =>
        let a := fresh "a" in let b := fresh "b" in
        destruct H as (a & b & ? & ? & ?)
    | H : Number.le _ _ |- _ =>
        let a := fresh "a" in let b := fresh "b" in
        destruct H as (a & b & ? & ? & ?)
    end.

Ltac float_literal_keys :=
  repeat match goal with
    | H : Number.key_of ?c = Some ?a |- _ =>
        is_var a;
        let v := eval vm_compute in (Number.key_of c) in
        lazymatch v with
        | Some (_, _, _) => change (v = Some a) in H; injection H as <-
        end
    | H1 : Number.key_of ?x = Some ?a, H2 : Number.key_of ?x = Some ?b |- _ =>
        rewrite H1 in H2; injection H2 as <-
    end.

Ltac float_neg_facts :=
  repeat match goal with
    | H : ~ Number.lt ?x ?y,
      Hx : Number.key_of ?x = Some ?a, Hy : Number.key_of ?y = Some ?b |- _ =>
        assert (~ Number.key_lt a b)
          by (intros ?; apply H; exists a, b; auto);
        clear H
    | H : ~ Number.le ?x ?y,
      Hx : Number.key_of ?x = Some ?a, Hy : Number.key_of ?y = Some ?b |- _ =>
        assert (~ Number.key_le a b)
          by (intros ?; apply H; exists a, b; auto);
        clear H
    end.

Ltac float_order :=
  intros;
  lazymatch goal with
  | |- PrimFloat.ltb _ _ = false => apply ltb_nlt; intro
  | |- PrimFloat.leb _ _ = false => apply leb_nle; intro
  | |- PrimFloat.ltb _ _ = true => apply ltb_lt
  | |- PrimFloat.leb _ _ = true => apply leb_le
  | |- _ => idtac
  end;
  float_keys; float_literal_keys; float_neg_facts;
  try (do 2 eexists;
       split; [first [eassumption | vm_compute; reflexivity]|];
       split; [first [eassumption | vm_compute; reflexivity]|]);
  unfold Number.key_lt, Number.key_le in *;
  repeat match goal with
    | a : (Z * Z * Z)%type |- _ => destruct a as [[? ?] ?]
    end;
  simplify_eq; lia.

Section NumberOrderFacts.

Local Open Scope float_scope.

Lemma ltb_asym (x y : float) : (x <? y) = true -> (y <? x) = false.
Proof. float_order. Qed.

Lemma leb_not_ltb (x y : float) : (x <=? y) = true -> (y <? x) = false.
Proof. float_order. Qed.

Lemma ltb_trans (x y z : float) :
  (x <? y) = true -> (y <? z) = true -> (x <? z) = true.
Proof. float_order. Qed.

Lemma leb_trans (x y z : float) :
  (x <=? y) = true -> (y <=? z) = true -> (x <=? z) = true.
Proof. float_order. Qed.

End NumberOrderFacts.

(** ** The object store *)

Section StoreFacts.

Implicit Types (s : State) (task l : loc) (t : Task) (f : Task -> Task).

Lemma get_allocated s l t : heap s !! l = Some t -> get l s = t.
Proof. apply list_lookup_total_correct. Qed.

Lemma get_mutate_eq f s l t :
  heap s !! l = Some t -> get l (mutate f l s) = f t.
Proof.
  intros H. unfold get, mutate. simpl.
  apply list_lookup_total_correct. now rewrite list_lookup_alter_eq, H.
Qed.

Lemma get_mutate_ne f s task l : task <> l -> get l (mutate f task s) = get l s.
Proof. intros H. unfold get, mutate. simpl. now apply list_lookup_total_alter_ne. Qed.

Lemma lookup_mutate_eq f s l :
  heap (mutate f l s) !! l = f <$> heap s !! l.
Proof. apply list_lookup_alter_eq. Qed.

Lemma lookup_mutate_ne f s task l :
  task <> l -> heap (mutate f task s) !! l = heap s !! l.
Proof. intros H. now apply list_lookup_alter_ne. Qed.

Lemma mutate_id f s task : (forall t, f t = t) -> mutate f task s = s.
Proof.
  intros H. unfold mutate. rewrite list_alter_id by done. now destruct s.
Qed.

(** A field that an assignment leaves alone reads the same afterwards. *)
Lemma proj_get_mutate {A} (proj : Task -> A) f s task l :
  (forall t, proj (f t) = proj t) ->
  proj (get l (mutate f task s)) = proj (get l s).
Proof.
  intros Hf. unfold get, mutate. simpl.
  rewrite list_lookup_total_alter. case_decide as H; [|done].
  destruct H as [-> _]. apply Hf.
Qed.

End StoreFacts.

(** [eval_get Ht] replaces [get task s'] in the goal by the object found
    there, when [s'] is [s] after field assignments and [Ht] says what
    [task] refers to in [s]. *)
Ltac eval_get Ht :=
  repeat match goal with
    | |- context [get ?l ?s'] =>
        let H := fresh in
        eassert (H : heap s' !! l = Some _)
          by (unfold mutate; simpl; rewrite ?list_lookup_alter_eq, Ht; reflexivity);
        rewrite (get_allocated _ _ _ H); clear H
    end.

Lemma float_neq (x y : float) : PrimFloat.Leibniz.eqb x y = false -> x <> y.
Proof.
  intros H E. apply FloatAxioms.Leibniz.eqb_spec in E. congruence.
Qed.

Lemma Some_float_neq (x y : float) :
  PrimFloat.Leibniz.eqb x y = false -> Some x <> Some y.
Proof.
  intros H E. apply (float_neq x y H).
  exact (f_equal (default x) E).
Qed.

(** ** The swipe offset of a locked move *)

Section GestureFacts.

Local Open Scope float_scope.

Implicit Types (s : State) (task : loc) (t : Task) (e : TouchEvent).

(** What [handleTouchMove] does once the guards have passed. *)
Lemma handleTouchMove_active e touch task s t :
  heap s !! task = Some t ->
  truthy (isSwipeActive t) = true -> truthy (isEditing t) = false ->
  touches e !! 0%nat = Some touch ->
  let deltaX := clientX touch - touchStartX s in
  let deltaY := clientY touch - touchStartY s in
  let s1 := set_isSwiping (lock_check deltaX deltaY (isSwiping s)) s in
  handleTouchMove e task s =
    Normal (if lock_check deltaX deltaY (isSwiping s)
            then mutate (set_swipeX (Some (resist deltaX))) task s1 else s1).
Proof.
  intros Ht Ha He Hto. unfold handleTouchMove.
  rewrite (get_allocated _ _ _ Ht), Ha, He, Hto. simpl.
  now destruct (lock_check _ _ _).
Qed.

Lemma resist_inside (deltaX : float) :
  (moveThreshold * 1.5 <=? deltaX) = true -> (deltaX <=? deleteThreshold) = true ->
  resist deltaX = deltaX.
Proof.
  intros H1 H2. unfold resist.
  assert ((deleteThreshold <? deltaX) = false) as -> by (revert H2; float_order).
  assert ((deltaX <? moveThreshold * 1.5) = false) as -> by (revert H1; float_order).
  reflexivity.
Qed.

Lemma resist_right (deltaX : float) :
  (deleteThreshold <? deltaX) = true ->
  resist deltaX = deleteThreshold + (deltaX - deleteThreshold) * resistance.
Proof. intros H. unfold resist. now rewrite H. Qed.

Lemma resist_left (deltaX : float) :
  (deltaX <? moveThreshold * 1.5) = true ->
  resist deltaX = moveThreshold * 1.5 + (deltaX - moveThreshold * 1.5) * resistance.
Proof.
  intros H. unfold resist.
  assert ((deleteThreshold <? deltaX) = false) as -> by (revert H; float_order).
  now rewrite H.
Qed.

Lemma between_thresholds (deltaX : float) :
  (moveThreshold <? deltaX) = true -> (deltaX <? deleteThreshold) = true ->
  (moveThreshold * 1.5 <=? deltaX) = true /\ (deltaX <=? deleteThreshold) = true.
Proof. intros H1 H2. split; revert H1 H2; float_order. Qed.

End GestureFacts.

Section LockedMove.

Local Open Scope float_scope.

(** C4, as amended. At a move event of a locked gesture (the lock flag is
    set once the horizontal-swipe check of this move has run) with
    horizontal displacement [deltaX], the stored swipe offset is [deltaX]
    itself when [moveThreshold * 1.5 <= deltaX <= deleteThreshold], in
    particular when [moveThreshold < deltaX < deleteThreshold]; it is
    [deleteThreshold + (deltaX - deleteThreshold) * 0.2] when
    [deltaX > deleteThreshold], and
    [moveThreshold * 1.5 + (deltaX - moveThreshold * 1.5) * 0.2] when
    [deltaX < moveThreshold * 1.5]. *)
Theorem locked_move_offset (e : TouchEvent) (touch : Touch) (task : loc)
        (s : State) (t : Task) :
  heap s !! task = Some t ->
  truthy (isSwipeActive t) = true -> truthy (isEditing t) = false ->
  touches e !! 0%nat = Some touch ->
  let deltaX := clientX touch - touchStartX s in
  let deltaY := clientY touch - touchStartY s in
  lock_check deltaX deltaY (isSwiping s) = true ->
  let s' := state_of (handleTouchMove e task s) in
  isSwiping s' = true /\
  ((moveThreshold <? deltaX) = true -> (deltaX <? deleteThreshold) = true ->
   swipeX (get task s') = Some deltaX) /\
  ((moveThreshold * 1.5 <=? deltaX) = true -> (deltaX <=? deleteThreshold) = true ->
   swipeX (get task s') = Some deltaX) /\
  ((deleteThreshold <? deltaX) = true ->
   swipeX (get task s') =
     Some (deleteThreshold + (deltaX - deleteThreshold) * resistance)) /\
  ((deltaX <? moveThreshold * 1.5) = true ->
   swipeX (get task s') =
     Some (moveThreshold * 1.5 + (deltaX - moveThreshold * 1.5) * resistance)).
Proof.
  intros Ht Ha He Hto deltaX deltaY Hlock s'.
  assert (Hs' : s' = mutate (set_swipeX (Some (resist deltaX))) task
                       (set_isSwiping true s)).
  { unfold s'. rewrite (handleTouchMove_active e touch task s t) by assumption.
    fold deltaX deltaY. now rewrite Hlock. }
  assert (Hx : swipeX (get task s') = Some (resist deltaX)).
  { rewrite Hs'. now rewrite (get_mutate_eq _ _ _ t). }
  split; [now rewrite Hs'|]. rewrite Hx.
  repeat split; intros.
  - destruct (between_thresholds deltaX) as [? ?]; [done..|].
    now rewrite resist_inside.
  - now rewrite resist_inside.
  - now rewrite resist_right.
  - now rewrite resist_left.
Qed.

Lemma locked_move_offset_witness :
  let s' := state_of (handleTouchMove (touch_at 130 0) 0 sample_started) in
  isSwiping s' = true /\ swipeX (get 0%nat s') = Some 122.
Proof.
  pose proof (locked_move_offset (touch_at 130 0) (mkTouch 130 0) 0 sample_started
                (get 0%nat sample_started)
                eq_refl eq_refl eq_refl eq_refl eq_refl) as (H1 & _ & _ & H2 & _).
  split; [exact H1|exact (H2 eq_refl)].
Defined.

(** C4 as stated fails in the negative direction: with [deltaX = -100],
    which is below [moveThreshold], the locked move stores -100 and not
    [moveThreshold + (deltaX - moveThreshold) * 0.2 = -84]. *)
Lemma locked_move_offset_counterexample :
  let s := sample_started in
  let deltaX := -100 - touchStartX s in
  let s' := state_of (handleTouchMove (touch_at (-100) 0) 0 s) in
  (deltaX <=? moveThreshold) = true /\
  isSwiping s' = true /\
  swipeX (get 0%nat s') = Some (-100) /\
  swipeX (get 0%nat s') <> Some (moveThreshold + (deltaX - moveThreshold) * resistance).
Proof.
  repeat split. now apply Some_float_neq.
Qed.

End LockedMove.

(** ** Classification at the end of a gesture *)

Section TouchEnd.

Local Open Scope float_scope.

Lemma handleTouchEnd_active (e : TouchEvent) (task : loc) (dayIndex : nat)
      (s : State) (t : Task) :
  heap s !! task = Some t ->
  truthy (isSwipeActive t) = true -> truthy (isEditing t) = false ->
  let offset := Number.or_zero (swipeX t) in
  let s1 := set_isSwiping false (mutate (set_isSwipeActive (Some false)) task s) in
  handleTouchEnd e task dayIndex s =
    if deleteThreshold <=? offset then
      set_timers (timers s ++ [mkTimer 200 dayIndex task])
                 (mutate (set_swipeX (Some 300)) task s1)
    else if offset <=? moveThreshold then
      mutate (set_swipeX (Some moveThreshold)) task
             (mutate (set_showMoveOptions (Some true)) task s1)
    else
      mutate (set_showMoveOptions (Some false)) task
             (mutate (set_swipeX (Some 0)) task s1).
Proof.
  intros Ht Ha He. unfold handleTouchEnd.
  now rewrite (get_allocated _ _ _ Ht), Ha, He.
Qed.

(** C5. At the end of a gesture on an active task that is not being
    edited (a locked gesture is one), with [offset] the task's swipe
    offset: if [offset >= deleteThreshold] (120) the offset becomes 300,
    the bucket is left as it is and the call [deleteTask(dayIndex, task.id)]
    is put on the timer queue with delay 200, from where it issues the
    DELETE request when it runs; if [offset <= moveThreshold] (-80) the
    move options are shown and the offset is exactly [moveThreshold];
    otherwise the offset is 0. For the displacement samples 0, 50, 130
    the offset before the end is 122 and the end classifies it as a
    delete. *)
Theorem touch_end_classification (e : TouchEvent) (task : loc) (dayIndex : nat)
        (s : State) (t : Task) :
  heap s !! task = Some t ->
  truthy (isSwipeActive t) = true -> truthy (isEditing t) = false ->
  let offset := Number.or_zero (swipeX t) in
  let s' := handleTouchEnd e task dayIndex s in
  ((deleteThreshold <=? offset) = true ->
   swipeX (get task s') = Some 300 /\
   days s' = days s /\
   timers s' = timers s ++ [mkTimer 200 dayIndex task] /\
   request_of <$> fireTimer (length (timers s)) s' =
     Some (Some (mkRequest DELETE ("/api/tasks/" ++ id t) None))) /\
  ((offset <=? moveThreshold) = true ->
   showMoveOptions (get task s') = Some true /\
   swipeX (get task s') = Some moveThreshold /\
   timers s' = timers s) /\
  ((deleteThreshold <=? offset) = false -> (offset <=? moveThreshold) = false ->
   swipeX (get task s') = Some 0 /\
   showMoveOptions (get task s') = Some false /\
   timers s' = timers s) /\
  (let g := gesture 0 0 scenario4_moves sample_one in
   let g' := handleTouchEnd (touch_at 130 0) 0 0 g in
   isSwiping g = true /\
   swipeX (get 0%nat g) = Some 122 /\
   swipeX (get 0%nat g') = Some 300 /\
   timers g' = [mkTimer 200 0 0] /\
   days g' = days g).
Proof.
  intros Ht Ha He offset s'.
  pose proof (handleTouchEnd_active e task dayIndex s t Ht Ha He) as Hs'.
  fold offset s' in Hs'. simpl in Hs'.
  assert (Hnd : (offset <=? moveThreshold) = true ->
                (deleteThreshold <=? offset) = false)
    by (unfold deleteThreshold, moveThreshold; float_order).
  repeat split; try reflexivity; intros;
    rewrite ?Hnd in Hs' by assumption;
    repeat match goal with H : (_ <=? _) = _ |- _ => rewrite H in Hs'; clear H end;
    rewrite Hs'; try reflexivity; try (eval_get Ht; reflexivity).
  unfold fireTimer. simpl.
  rewrite lookup_app_r, Nat.sub_diag by done. simpl.
  eval_get Ht. reflexivity.
Qed.

Lemma touch_end_classification_witness :
  let g := gesture 0 0 scenario4_moves sample_one in
  let g' := handleTouchEnd (touch_at 130 0) 0 0 g in
  (deleteThreshold <=? Number.or_zero (swipeX (get 0%nat g))) = true /\
  swipeX (get 0%nat g') = Some 300 /\
  timers g' = [mkTimer 200 0 0] /\
  request_of <$> fireTimer 0 g' = Some (Some (mkRequest DELETE "/api/tasks/42" None)).
Proof.
  pose proof (touch_end_classification (touch_at 130 0) 0 0
                (gesture 0 0 scenario4_moves sample_one)
                (get 0%nat (gesture 0 0 scenario4_moves sample_one))
                eq_refl eq_refl eq_refl) as (H & _).
  destruct (H eq_refl) as (H1 & _ & H2 & H3).
  split; [reflexivity|]. split; [exact H1|]. split; [exact H2|exact H3].
Defined.

End TouchEnd.

(** ** Moves before the lock *)

Section VerticalScroll.

Local Open Scope float_scope.

Lemma set_isSwiping_same (s : State) : set_isSwiping (isSwiping s) s = s.
Proof. now destruct s. Qed.

Lemma lock_check_not_horizontal (deltaX deltaY : float) :
  (abs deltaX <=? 10) = true \/ (abs deltaX <=? abs deltaY) = true ->
  lock_check deltaX deltaY false = false.
Proof.
  intros [H|H]; unfold lock_check; simpl.
  - now rewrite (leb_not_ltb _ _ H).
  - rewrite (leb_not_ltb _ _ H). now destruct (10 <? abs deltaX).
Qed.

Lemma lock_check_horizontal (deltaX deltaY : float) (swiping : bool) :
  (10 <? abs deltaX) = true -> (abs deltaY <? abs deltaX) = true ->
  lock_check deltaX deltaY swiping = true.
Proof. intros H1 H2. unfold lock_check. rewrite H1, H2. now destruct swiping. Qed.

Lemma handleTouchMove_unlocked (e : TouchEvent) (task : loc) (s : State) :
  isSwiping s = false -> not_horizontal s e ->
  state_of (handleTouchMove e task s) = s.
Proof.
  intros Hs Hn. unfold handleTouchMove.
  destruct (negb _ || _); [reflexivity|].
  destruct (touches e !! 0%nat) as [touch|] eqn:Hto; [|reflexivity].
  rewrite Hs, (lock_check_not_horizontal _ _ (Hn touch Hto)). simpl.
  rewrite <- Hs. apply set_isSwiping_same.
Qed.

(** C6, as amended. While the gesture is not locked, a run of move events
    that are each not horizontal ([|deltaX| <= 10] or
    [|deltaX| <= |deltaY|]) leaves the whole state, so the lock flag and
    the swipe offset, as it was. The vertical classification is not
    remembered: the next move of the same gesture with [|deltaX| > 10] and
    [|deltaX| > |deltaY|] on the active task locks into horizontal-swipe
    mode and stores the offset. *)
Theorem unlocked_moves_inert_until_horizontal
        (es : list TouchEvent) (e : TouchEvent) (touch : Touch)
        (task : loc) (dayIndex : nat) (s : State) (t : Task) :
  isSwiping s = false ->
  Forall (not_horizontal s) es ->
  heap s !! task = Some t ->
  truthy (isSwipeActive t) = true -> truthy (isEditing t) = false ->
  touches e !! 0%nat = Some touch ->
  let deltaX := clientX touch - touchStartX s in
  let deltaY := clientY touch - touchStartY s in
  (10 <? abs deltaX) = true -> (abs deltaY <? abs deltaX) = true ->
  let s1 := gesture task dayIndex (TouchMove <$> es) s in
  let s2 := state_of (handleTouchMove e task s1) in
  s1 = s /\ isSwiping s2 = true /\ swipeX (get task s2) = Some (resist deltaX).
Proof.
  intros Hs Hes Ht Ha He Hto deltaX deltaY H10 Hxy s1 s2.
  assert (H1 : s1 = s).
  { unfold s1. clear s1 s2. induction Hes as [|e' es' He' _ IH]; [reflexivity|].
    simpl. unfold gesture in IH.
    now rewrite (handleTouchMove_unlocked e' task s Hs He'). }
  split; [exact H1|]. unfold s2. rewrite H1.
  rewrite (handleTouchMove_active e touch task s t) by assumption.
  fold deltaX deltaY. rewrite lock_check_horizontal by assumption. simpl.
  split; [reflexivity|]. eval_get Ht. reflexivity.
Qed.

Lemma unlocked_moves_inert_until_horizontal_witness :
  let s1 := gesture 0 0 [TouchMove (touch_at 11 20)] sample_started in
  let s2 := state_of (handleTouchMove (touch_at 50 20) 0 s1) in
  not_horizontal sample_started (touch_at 11 20) /\
  s1 = sample_started /\ isSwiping s2 = true /\ swipeX (get 0%nat s2) = Some 50.
Proof.
  assert (H : not_horizontal sample_started (touch_at 11 20)).
  { intros touch Hto. injection Hto as <-. right. reflexivity. }
  split; [exact H|].
  exact (unlocked_moves_inert_until_horizontal
           [touch_at 11 20] (touch_at 50 20) (mkTouch 50 20) 0 0 sample_started
           (get 0%nat sample_started)
           eq_refl (Forall_cons_2 _ _ _ H (Forall_nil_2 _))
           eq_refl eq_refl eq_refl eq_refl eq_refl eq_refl).
Defined.

(** C6 as stated fails: the first move past 10 units, to (11, 20), has
    [|deltaX| <= |deltaY|] and does not lock; the next move of the same
    gesture, to (50, 20), locks and changes the swipe offset from 0 to
    50. *)
Lemma vertical_scroll_counterexample :
  let s1 := state_of (handleTouchMove (touch_at 11 20) 0 sample_started) in
  let s2 := state_of (handleTouchMove (touch_at 50 20) 0 s1) in
  (10 <? abs (11 - touchStartX sample_started)) = true /\
  (abs (11 - touchStartX sample_started) <=? abs (20 - touchStartY sample_started)) = true /\
  isSwiping s1 = false /\
  swipeX (get 0%nat s1) = Some 0 /\
  isSwiping s2 = true /\
  swipeX (get 0%nat s2) = Some 50 /\
  swipeX (get 0%nat s2) <> swipeX (get 0%nat s1).
Proof.
  repeat split. now apply Some_float_neq.
Qed.

End VerticalScroll.

(** ** Which gesture state is per task *)

Section PerTask.

Local Open Scope float_scope.

Lemma handleTouchStart_frame (e : TouchEvent) (a b : loc) (s : State) :
  a <> b ->
  heap (state_of (handleTouchStart e a s)) !! b = heap s !! b /\
  days (state_of (handleTouchStart e a s)) = days s.
Proof.
  intros Hab. unfold handleTouchStart.
  destruct (truthy _); [done|]. destruct (touches e !! 0%nat); [|done].
  simpl. split; [|done]. now apply list_lookup_alter_ne.
Qed.

Lemma handleTouchMove_frame (e : TouchEvent) (a b : loc) (s : State) :
  a <> b ->
  heap (state_of (handleTouchMove e a s)) !! b = heap s !! b /\
  days (state_of (handleTouchMove e a s)) = days s.
Proof.
  intros Hab. unfold handleTouchMove.
  destruct (negb _ || _); [done|]. destruct (touches e !! 0%nat); [|done].
  simpl. destruct (lock_check _ _ _); simpl; [|done].
  split; [|done]. now apply list_lookup_alter_ne.
Qed.

Lemma handleTouchEnd_frame (e : TouchEvent) (a b : loc) (dayIndex : nat) (s : State) :
  a <> b ->
  heap (handleTouchEnd e a dayIndex s) !! b = heap s !! b /\
  days (handleTouchEnd e a dayIndex s) = days s.
Proof.
  intros Hab. unfold handleTouchEnd.
  destruct (negb _ || _); [done|].
  destruct (_ <=? _); [|destruct (_ <=? _)]; simpl;
    (split; [|done]); now rewrite !list_lookup_alter_ne.
Qed.

(** C7, as amended. For two tasks with distinct ids, the start, move and
    end events of a gesture on task [a] never change the object of task
    [b], so its swipe offset, active flag and pending-move flag, nor any
    bucket. The lock flag and the recorded start position are not kept per
    task: they are variables of the component, shared by all tasks, and a
    start on [a] (not being edited) clears the lock and overwrites the
    start position whatever gesture is in progress on [b]. *)
Theorem gesture_fields_per_task_lock_shared
        (e : TouchEvent) (a b : loc) (dayIndex : nat) (s : State) :
  id (get a s) <> id (get b s) ->
  (heap (state_of (handleTouchStart e a s)) !! b = heap s !! b /\
   days (state_of (handleTouchStart e a s)) = days s) /\
  (heap (state_of (handleTouchMove e a s)) !! b = heap s !! b /\
   days (state_of (handleTouchMove e a s)) = days s) /\
  (heap (handleTouchEnd e a dayIndex s) !! b = heap s !! b /\
   days (handleTouchEnd e a dayIndex s) = days s) /\
  (forall touch,
      truthy (isEditing (get a s)) = false -> touches e !! 0%nat = Some touch ->
      let s' := state_of (handleTouchStart e a s) in
      isSwiping s' = false /\
      touchStartX s' = clientX touch /\ touchStartY s' = clientY touch).
Proof.
  intros Hid. assert (Hab : a <> b) by congruence.
  split; [now apply handleTouchStart_frame|].
  split; [now apply handleTouchMove_frame|].
  split; [now apply handleTouchEnd_frame|].
  intros touch He Hto. unfold handleTouchStart. now rewrite He, Hto.
Qed.

Lemma gesture_fields_per_task_lock_shared_witness :
  let s' := state_of (handleTouchStart (touch_at 200 0) 0 sample_locked_43) in
  id (get 0%nat sample_locked_43) <> id (get 1%nat sample_locked_43) /\
  heap s' !! 1%nat = heap sample_locked_43 !! 1%nat /\
  isSwiping s' = false /\ touchStartX s' = 200.
Proof.
  assert (H : id (get 0%nat sample_locked_43) <> id (get 1%nat sample_locked_43))
    by discriminate.
  destruct (gesture_fields_per_task_lock_shared
              (touch_at 200 0) 0 1 0 sample_locked_43 H)
    as ((H1 & _) & _ & _ & H2).
  destruct (H2 (mkTouch 200 0) eq_refl eq_refl) as (H3 & H4 & _).
  split; [exact H|]. split; [exact H1|]. split; [exact H3|exact H4].
Defined.

(** C7 as stated fails: a start on task "42" changes the lock status and
    the recorded start position of the gesture in progress on task "43",
    and the next move of that gesture stores -124 instead of 60. *)
Lemma per_task_state_counterexample :
  let s := sample_locked_43 in
  let s' := state_of (handleTouchStart (touch_at 200 0) 0 s) in
  id (get 0%nat s) <> id (get 1%nat s) /\
  gesture_state 1 s = (Some 50, Some true, Some false, true, 0, 0) /\
  gesture_state 1 s' = (Some 50, Some true, Some false, false, 200, 0) /\
  gesture_state 1 s' <> gesture_state 1 s /\
  swipeX (get 1%nat (state_of (handleTouchMove (touch_at 60 0) 1 s))) = Some 60 /\
  swipeX (get 1%nat (state_of (handleTouchMove (touch_at 60 0) 1 s'))) = Some (-124).
Proof.
  repeat split; discriminate.
Qed.

End PerTask.

(** ** Cancel, and a scheduled delete that fails *)

Section Cancel.

Local Open Scope float_scope.

Lemma id_get_resetTaskSwipe (task l : loc) (s : State) :
  id (get l (resetTaskSwipe task s)) = id (get l s).
Proof. unfold resetTaskSwipe. now rewrite !(proj_get_mutate id). Qed.

(** C8, as amended. From every state, [resetTaskSwipe] sets the task's
    swipe offset to 0 and clears its pending-move flag and its active
    flag; it changes no bucket. It does not touch the timer queue: a
    delete that was scheduled stays scheduled and issues the same request
    when it runs. *)
Theorem cancel_resets_fields_keeps_timers (task : loc) (s : State) (t : Task) :
  heap s !! task = Some t ->
  let s' := resetTaskSwipe task s in
  swipeX (get task s') = Some 0 /\
  showMoveOptions (get task s') = Some false /\
  isSwipeActive (get task s') = Some false /\
  days s' = days s /\
  timers s' = timers s /\
  (forall n, request_of <$> fireTimer n s' = request_of <$> fireTimer n s).
Proof.
  intros Ht s'. unfold s'.
  repeat split; try (unfold resetTaskSwipe; eval_get Ht; reflexivity).
  intros n. unfold fireTimer.
  change (timers (resetTaskSwipe task s)) with (timers s).
  destruct (timers s !! n) as [tm|]; [|reflexivity]. simpl.
  now rewrite (id_get_resetTaskSwipe task (timer_task tm) s).
Qed.

Lemma cancel_resets_fields_keeps_timers_witness :
  let s' := resetTaskSwipe 0 sample_pending_delete in
  swipeX (get 0%nat s') = Some 0 /\ timers s' = [mkTimer 200 0 0].
Proof.
  destruct (cancel_resets_fields_keeps_timers 0 sample_pending_delete
              (get 0%nat sample_pending_delete) eq_refl)
    as (H1 & _ & _ & _ & H2 & _).
  split; [exact H1|exact H2].
Defined.

(** C8 as stated fails: after a cancel in the state where the delete of
    task "42" is pending, the scheduled callback is still on the queue;
    when it runs it issues the DELETE request, and the confirmed response
    removes the task from Monday. *)
Lemma cancel_counterexample :
  let s' := resetTaskSwipe 0 sample_pending_delete in
  timers sample_pending_delete = [mkTimer 200 0 0] /\
  timers s' = [mkTimer 200 0 0] /\
  id <$> concat (board s') = ["42"%string] /\
  exists a, fireTimer 0 s' = Some a /\
    request_of a = Some (mkRequest DELETE "/api/tasks/42" None) /\
    concat (board (resume a (HttpOk None) (state_at_call a))) = [].
Proof.
  repeat split. eexists. split; [reflexivity|]. split; reflexivity.
Qed.

(** C10. When the end of a gesture on an active task has classified it as
    a delete (offset 300, [deleteTask] on the timer queue) and the request
    of the scheduled [deleteTask] fails, by a network error or a
    non-success status, the response changes nothing in whatever state it
    arrives: every bucket is as before the gesture ended, so the task is
    still in its bucket, and its swipe offset is still 300. *)
Theorem failed_scheduled_delete_keeps_offset
        (e : TouchEvent) (task : loc) (dayIndex : nat) (s : State) (t : Task)
        (res : Response) :
  heap s !! task = Some t ->
  truthy (isSwipeActive t) = true -> truthy (isEditing t) = false ->
  (deleteThreshold <=? Number.or_zero (swipeX t)) = true ->
  res = NetworkError \/ res = HttpError ->
  let s1 := handleTouchEnd e task dayIndex s in
  exists a,
    fireTimer (length (timers s)) s1 = Some a /\
    request_of a = Some (mkRequest DELETE ("/api/tasks/" ++ id t) None) /\
    (forall s3, resume a res s3 = s3) /\
    let s2 := resume a res (state_at_call a) in
    days s2 = days s /\
    swipeX (get task s2) = Some 300 /\
    isSwipeActive (get task s2) = Some false /\
    timers s2 = timers s.
Proof.
  intros Ht Ha He Hd Hres s1.
  pose proof (handleTouchEnd_active e task dayIndex s t Ht Ha He) as Hs1.
  simpl in Hs1. rewrite Hd in Hs1. fold s1 in Hs1.
  eexists. split.
  { rewrite Hs1. unfold fireTimer. simpl.
    rewrite lookup_app_r, Nat.sub_diag by done. simpl. reflexivity. }
  split; [simpl; eval_get Ht; reflexivity|].
  split; [destruct Hres as [-> | ->]; reflexivity|].
  simpl. destruct Hres as [-> | ->]; simpl;
    rewrite delete_middle, app_nil_r;
    (repeat split; try (eval_get Ht; reflexivity)).
Qed.

End Cancel.

Lemma failed_scheduled_delete_keeps_offset_witness :
  exists a,
    fireTimer 0 sample_pending_delete = Some a /\
    request_of a = Some (mkRequest DELETE "/api/tasks/42" None) /\
    days (resume a HttpError (state_at_call a)) = days sample_one /\
    swipeX (get 0 (resume a HttpError (state_at_call a))) = Some 300%float.
Proof.
  destruct (failed_scheduled_delete_keeps_offset
              (touch_at 130 0) 0 0 (gesture 0 0 scenario4_moves sample_one)
              (get 0 (gesture 0 0 scenario4_moves sample_one)) HttpError
              eq_refl eq_refl eq_refl eq_refl (or_intror eq_refl))
    as (a & H1 & H2 & _ & H3 & H4 & _).
  exists a. split; [exact H1|]. split; [exact H2|]. split; [exact H3|exact H4].
Defined.

(** ** Invalid input and failed requests *)

Section Failures.

Local Open Scope string_scope.

Lemma persistent_get_leave_edit (task l : loc) (s : State) :
  persistent (get l (leave_edit task s)) = persistent (get l s).
Proof. unfold leave_edit. now rewrite !(proj_get_mutate persistent). Qed.

Lemma stored_leave_edit (task : loc) (s : State) :
  stored (leave_edit task s) = stored s.
Proof.
  unfold stored, board.
  change (days (leave_edit task s)) with (days s).
  rewrite <- !list_fmap_compose. apply list_fmap_ext. intros _ d _. simpl.
  unfold bucket. rewrite <- !list_fmap_compose.
  apply list_fmap_ext. intros _ l _. simpl.
  apply persistent_get_leave_edit.
Qed.

Lemma lookup_leave_edit_ne (task l : loc) (s : State) :
  task <> l -> heap (leave_edit task s) !! l = heap s !! l.
Proof. intros H. unfold leave_edit. now rewrite !lookup_mutate_ne. Qed.

(** C9. A create whose description trims to the empty string returns
    before any request and leaves the whole state untouched. A rename
    confirmation whose edited text trims to the empty string returns before
    any request as well; it only leaves edit mode: the buckets hold the same
    references, and the id, description and completed flag of every task
    are unchanged. *)
Theorem empty_input_short_circuits :
  (forall (uuid : string) (dayIndex : nat) (s : State) (dayObj : Day),
      days s !! dayIndex = Some dayObj ->
      Str.trim (newTaskDescription dayObj) = "" ->
      addTask uuid dayIndex s = Returned s /\
      request_of (addTask uuid dayIndex s) = None) /\
  (forall (task : loc) (s : State) (text : string),
      editingText (get task s) = Some text ->
      Str.trim text = "" ->
      let a := saveTaskEdit task s in
      request_of a = None /\
      (forall res s3, resume a res s3 = s3) /\
      days (state_at_call a) = days s /\
      stored (state_at_call a) = stored s /\
      (forall l, description (get l (state_at_call a)) = description (get l s))).
Proof.
  split.
  - intros uuid dayIndex s dayObj Hd Hdesc. unfold addTask.
    rewrite Hd, Hdesc. now rewrite decide_True.
  - intros task s text Ht Htrim a. unfold a, saveTaskEdit.
    rewrite Ht, Htrim. rewrite decide_True by done. simpl.
    repeat split.
    + apply stored_leave_edit.
    + intros l. unfold leave_edit.
      now rewrite !(proj_get_mutate description).
Qed.

Lemma empty_input_short_circuits_witness :
  addTask "uuid-2" 0 (input_newTaskDescription 0 "  " sample_one)
    = Returned (input_newTaskDescription 0 "  " sample_one) /\
  request_of (saveTaskEdit 0 sample_blank_edit) = None /\
  stored (state_at_call (saveTaskEdit 0 sample_blank_edit)) = stored sample_one.
Proof.
  destruct empty_input_short_circuits as [Hadd Hsave].
  split.
  - exact (proj1 (Hadd "uuid-2" 0%nat (input_newTaskDescription 0 "  " sample_one)
                       (mkDay "Monday" [0%nat] "  " "#FFF4E6") eq_refl eq_refl)).
  - destruct (Hsave 0%nat sample_blank_edit "   " eq_refl eq_refl)
      as (H1 & _ & _ & H2 & _).
    split; [exact H1|exact H2].
Defined.

End Failures.

Section FailedRequests.

Local Open Scope string_scope.

Lemma get_leave_edit_fields (task l : loc) (s : State) :
  let t' := get l (leave_edit task s) in
  let t := get l s in
  (popoverOpen t', swipeX t', isSwipeActive t', showMoveOptions t')
  = (popoverOpen t, swipeX t, isSwipeActive t, showMoveOptions t).
Proof.
  simpl. unfold leave_edit.
  rewrite !(proj_get_mutate popoverOpen), !(proj_get_mutate swipeX),
    !(proj_get_mutate isSwipeActive), !(proj_get_mutate showMoveOptions); done.
Qed.

(** C2. A task of a bucket is its id, its description and its completed
    flag; [stored] reads the buckets as lists of such tasks. When the
    request of a create, toggle, rename, move or delete call fails (network
    error or non-success status), the call has changed nothing before the
    request, and the response leaves every bucket as it finds it: no task is
    added or removed and no id, description or completed flag changes. For
    create, toggle, move and delete the response changes nothing at all. For
    rename it changes no day and no other task object, and on the renamed
    task nothing but the edit mode of the view, which [saveTaskEdit] leaves
    in its [finally] block. *)
Theorem failed_request_keeps_buckets (res : Response) :
  failed res ->
  (forall uuid dayIndex s s3,
      state_at_call (addTask uuid dayIndex s) = s /\
      resume (addTask uuid dayIndex s) res s3 = s3) /\
  (forall now dayIndex taskId s s3,
      state_at_call (toggleTask now dayIndex taskId s) = s /\
      resume (toggleTask now dayIndex taskId s) res s3 = s3) /\
  (forall fromDayIndex task toDayIndex s s3,
      state_at_call (moveTask fromDayIndex task toDayIndex s) = s /\
      resume (moveTask fromDayIndex task toDayIndex s) res s3 = s3) /\
  (forall dayIndex taskId s s3,
      state_at_call (deleteTask dayIndex taskId s) = s /\
      resume (deleteTask dayIndex taskId s) res s3 = s3) /\
  (forall task s req s3,
      request_of (saveTaskEdit task s) = Some req ->
      let s' := resume (saveTaskEdit task s) res s3 in
      state_at_call (saveTaskEdit task s) = s /\
      days s' = days s3 /\
      stored s' = stored s3 /\
      (forall l, task <> l -> heap s' !! l = heap s3 !! l) /\
      (popoverOpen (get task s'), swipeX (get task s'),
       isSwipeActive (get task s'), showMoveOptions (get task s'))
      = (popoverOpen (get task s3), swipeX (get task s3),
         isSwipeActive (get task s3), showMoveOptions (get task s3)) /\
      taskHoverState s' = taskHoverState s3 /\
      timers s' = timers s3 /\
      (touchStartX s', touchStartY s', isSwiping s')
      = (touchStartX s3, touchStartY s3, isSwiping s3)).
Proof.
  intros Hres.
  split; [|split; [|split; [|split]]].
  - intros uuid dayIndex s s3. unfold addTask.
    destruct (days s !! dayIndex); [|done]. case_decide; [done|].
    destruct Hres as [-> | ->]; done.
  - intros now dayIndex taskId s s3. unfold toggleTask.
    destruct (days s !! dayIndex); [|done]. destruct (List.find _ _); [|done].
    destruct Hres as [-> | ->]; done.
  - intros fromDayIndex task toDayIndex s s3. unfold moveTask.
    case_decide; [done|]. destruct (days s !! toDayIndex); [|done].
    destruct Hres as [-> | ->]; done.
  - intros dayIndex taskId s s3. destruct Hres as [-> | ->]; done.
  - intros task s req s3 Hreq s'.
    assert (Hs' : state_at_call (saveTaskEdit task s) = s /\
                  s' = leave_edit task s3).
    { unfold s'. unfold saveTaskEdit in *.
      destruct (editingText (get task s)); [|done]. case_decide; [done|].
      destruct Hres as [-> | ->]; done. }
    destruct Hs' as [Hcall ->]. split; [done|]. split; [done|].
    split; [apply stored_leave_edit|].
    split; [intros l Hl; now apply lookup_leave_edit_ne|].
    split; [apply get_leave_edit_fields|]. done.
Qed.

Lemma failed_request_keeps_buckets_witness :
  resume (deleteTask 0 "42" sample_one) HttpError sample_one = sample_one /\
  stored (resume (saveTaskEdit 0 sample_edit) HttpError sample_edit)
  = stored sample_edit /\
  stored sample_edit
  = [[("42", "Call Bob", false)]; []; []; []; []; []; []; []].
Proof.
  destruct (failed_request_keeps_buckets HttpError (or_intror eq_refl))
    as (_ & _ & _ & Hdel & Hsave).
  split; [|split; [|reflexivity]].
  - exact (proj2 (Hdel 0%nat "42" sample_one sample_one)).
  - exact (proj1 (proj2 (proj2 (Hsave 0%nat sample_edit _ sample_edit eq_refl)))).
Defined.

(** What the response to a failed rename does change: the request of
    [saveTaskEdit] on task "42" fails, and the task leaves edit mode;
    [isEditing] goes from true to false and [editingText] from "Call Bobby"
    to "". *)
Lemma failed_rename_leaves_edit_mode :
  let a := saveTaskEdit 0 sample_edit in
  let s' := resume a HttpError (state_at_call a) in
  request_of a = Some (mkRequest PUT "/api/tasks/42" (Some (TextBody "Call Bobby"))) /\
  fmap (M:=list) isEditing <$> board sample_edit !! 0%nat = Some [Some true] /\
  fmap (M:=list) isEditing <$> board s' !! 0%nat = Some [Some false] /\
  fmap (M:=list) editingText <$> board sample_edit !! 0%nat = Some [Some "Call Bobby"] /\
  fmap (M:=list) editingText <$> board s' !! 0%nat = Some [Some ""] /\
  stored s' = stored sample_edit.
Proof. repeat split. Qed.

End FailedRequests.

(** ** Re-applying a confirmed response *)

Section Reapply.

Lemma remove_id_idemp (dayIndex : nat) (taskId : string) (s : State) :
  remove_id dayIndex taskId (remove_id dayIndex taskId s) = remove_id dayIndex taskId s.
Proof.
  unfold remove_id, set_days, get. simpl. f_equal.
  rewrite list_alter_alter_eq. apply list_alter_ext; [|done].
  intros d _. unfold set_tasks. simpl. f_equal.
  apply list_filter_filter_l. auto.
Qed.

Lemma deleteTask_ok_idemp (dayIndex : nat) (taskId : string) (s : State) :
  deleteTask_ok dayIndex taskId (deleteTask_ok dayIndex taskId s)
  = deleteTask_ok dayIndex taskId s.
Proof.
  unfold deleteTask_ok.
  destruct (days s !! dayIndex) as [d|] eqn:Hd; [|now rewrite Hd].
  simpl. rewrite list_lookup_alter_eq, Hd. simpl.
  change (remove_id dayIndex taskId
            (set_taskHoverState (delete taskId (taskHoverState s))
                                (remove_id dayIndex taskId s)))
    with (set_taskHoverState (delete taskId (taskHoverState s))
            (remove_id dayIndex taskId (remove_id dayIndex taskId s))).
  rewrite remove_id_idemp. unfold set_taskHoverState. simpl.
  now rewrite delete_delete_eq.
Qed.

Lemma mutate_idemp (f : Task -> Task) (task : loc) (s : State) :
  (forall t, f (f t) = f t) -> mutate f task (mutate f task s) = mutate f task s.
Proof.
  intros Hf. unfold mutate, set_heap. simpl. f_equal.
  rewrite list_alter_alter_eq. apply list_alter_ext; [|done].
  intros t _. apply Hf.
Qed.

Lemma rename_ok_idemp (newText : string) (task : loc) (s : State) :
  let k s := leave_edit task (mutate (set_description newText) task s) in
  k (k s) = k s.
Proof.
  unfold leave_edit, mutate, set_heap. simpl. f_equal.
  rewrite !list_alter_alter_eq. apply list_alter_ext; [|done].
  now intros [].
Qed.

Lemma addTask_ok_spec (uuid : string) (dayIndex : nat) (desc : string)
      (i : option string) (s : State) (d : Day) :
  days s !! dayIndex = Some d ->
  let s' := addTask_ok uuid dayIndex desc (Some i) s in
  heap s' = heap s ++ [fresh_task (default uuid i) desc false] /\
  days s' !! dayIndex
    = Some (mkDay (name d) (tasks d ++ [length (heap s)]) "" (dayBgColor d)).
Proof.
  intros Hd. simpl. split; [reflexivity|].
  now rewrite !list_lookup_alter_eq, Hd.
Qed.

Lemma moveTask_ok_spec (fromDayIndex : nat) (task : loc) (toDayIndex : nat)
      (s : State) (t : Task) (dfrom d : Day) :
  fromDayIndex <> toDayIndex ->
  heap s !! task = Some t ->
  days s !! fromDayIndex = Some dfrom ->
  days s !! toDayIndex = Some d ->
  let obj := fresh_task (id t) (description t) (completed t) in
  let s' := moveTask_ok fromDayIndex task toDayIndex s in
  s' = push_task toDayIndex obj (remove_id fromDayIndex (id t) s) /\
  heap s' = heap s ++ [obj] /\
  days s' !! toDayIndex = Some (set_tasks (tasks d ++ [length (heap s)]) d) /\
  days s' !! fromDayIndex
    = Some (set_tasks (filter (fun l => id (get l s) <> id t) (tasks dfrom)) dfrom).
Proof.
  intros Hne Ht Hf Hd obj s'.
  assert (Hs' : s' = push_task toDayIndex obj (remove_id fromDayIndex (id t) s)).
  { unfold s', moveTask_ok. rewrite Hf. simpl.
    rewrite list_lookup_alter_ne, Hd by done.
    change (get task (remove_id fromDayIndex (id (get task s)) s)) with (get task s).
    now rewrite (get_allocated _ _ _ Ht). }
  split; [exact Hs'|]. rewrite Hs'. simpl. split; [reflexivity|].
  rewrite list_lookup_alter_eq, list_lookup_alter_ne, Hd by done.
  rewrite list_lookup_alter_ne, list_lookup_alter_eq, Hf by done.
  split; reflexivity.
Qed.

(** C3, as amended. Re-applying the confirmed response of a delete, a
    toggle or a rename to a state that already reflects it changes nothing.
    Re-applying the confirmed response of a create, or of a move, is not a
    no-op: nothing is matched by id, and each application appends one more
    task object with the same id to the (destination) bucket. *)
Theorem reapplied_confirmation (json : option (option string)) :
  let ok := HttpOk json in
  (forall dayIndex taskId s0 s,
      let a := deleteTask dayIndex taskId s0 in
      resume a ok (resume a ok s) = resume a ok s) /\
  (forall now dayIndex taskId s0 s,
      let a := toggleTask now dayIndex taskId s0 in
      resume a ok (resume a ok s) = resume a ok s) /\
  (forall task s0 s,
      let a := saveTaskEdit task s0 in
      resume a ok (resume a ok s) = resume a ok s) /\
  (forall uuid dayIndex s0 req i s d,
      let a := addTask uuid dayIndex s0 in
      request_of a = Some req ->
      days s !! dayIndex = Some d ->
      let s2 := resume a (HttpOk (Some i)) (resume a (HttpOk (Some i)) s) in
      exists obj d2,
        id obj = default uuid i /\
        heap s2 = heap s ++ [obj; obj] /\
        days s2 !! dayIndex = Some d2 /\
        tasks d2 = tasks d ++ [length (heap s); S (length (heap s))]) /\
  (forall fromDayIndex task toDayIndex s0 req s t dfrom d,
      let a := moveTask fromDayIndex task toDayIndex s0 in
      request_of a = Some req ->
      heap s !! task = Some t ->
      days s !! fromDayIndex = Some dfrom ->
      days s !! toDayIndex = Some d ->
      let s2 := resume a ok (resume a ok s) in
      exists obj d2,
        id obj = id t /\
        heap s2 = heap s ++ [obj; obj] /\
        days s2 !! toDayIndex = Some d2 /\
        tasks d2 = tasks d ++ [length (heap s); S (length (heap s))]).
Proof.
  intros ok. split; [|split; [|split; [|split]]].
  - intros dayIndex taskId s0 s. apply deleteTask_ok_idemp.
  - intros now dayIndex taskId s0 s. unfold toggleTask.
    destruct (days s0 !! dayIndex); [|done]. destruct (List.find _ _); [|done].
    simpl. now apply mutate_idemp.
  - intros task s0 s. unfold saveTaskEdit.
    destruct (editingText (get task s0)); [|done]. case_decide; [done|].
    apply rename_ok_idemp.
  - intros uuid dayIndex s0 req i s d a Hreq Hd s2. unfold s2, a in *.
    unfold addTask in *. destruct (days s0 !! dayIndex) as [d0|]; [|done].
    case_decide; [done|]. unfold resume.
    destruct (addTask_ok_spec uuid dayIndex (Str.trim (newTaskDescription d0))
                i s d Hd) as [Hh1 Hd1].
    destruct (addTask_ok_spec uuid dayIndex (Str.trim (newTaskDescription d0))
                i _ _ Hd1) as [Hh2 Hd2].
    exists (fresh_task (default uuid i) (Str.trim (newTaskDescription d0)) false).
    eexists. split; [|split; [|split; [exact Hd2|]]].
    + reflexivity.
    + rewrite Hh2, Hh1. now rewrite <- app_assoc.
    + unfold set_tasks. cbn [tasks]. rewrite Hh1, length_app, <- app_assoc.
      simpl. now rewrite Nat.add_1_r.
  - intros fromDayIndex task toDayIndex s0 req s t dfrom d a Hreq Ht Hf Hd s2.
    unfold s2, a in *. unfold moveTask in *.
    case_decide as Hne; [done|]. destruct (days s0 !! toDayIndex); [|done].
    unfold resume, ok.
    destruct (moveTask_ok_spec fromDayIndex task toDayIndex s t dfrom d
                Hne Ht Hf Hd) as (_ & Hh1 & Hd1 & Hf1).
    assert (Ht1 : heap (moveTask_ok fromDayIndex task toDayIndex s) !! task = Some t)
      by (rewrite Hh1; now apply lookup_app_l_Some).
    destruct (moveTask_ok_spec fromDayIndex task toDayIndex _ t _ _
                Hne Ht1 Hf1 Hd1) as (_ & Hh2 & Hd2 & _).
    exists (fresh_task (id t) (description t) (completed t)).
    eexists. split; [|split; [|split; [exact Hd2|]]].
    + reflexivity.
    + rewrite Hh2, Hh1. now rewrite <- app_assoc.
    + unfold set_tasks. cbn [tasks]. rewrite Hh1, length_app, <- app_assoc.
      simpl. now rewrite Nat.add_1_r.
Qed.

Lemma reapplied_confirmation_witness :
  let a := moveTask 0 0 1 sample_one in
  let s2 := resume a (HttpOk None) (resume a (HttpOk None) sample_one) in
  request_of a = Some (mkRequest PUT "/api/tasks/42" (Some (DayBody "Tuesday"))) /\
  exists obj d2,
    id obj = "42"%string /\
    heap s2 = heap sample_one ++ [obj; obj] /\
    days s2 !! 1%nat = Some d2 /\
    tasks d2 = [1%nat; 2%nat].
Proof.
  split; [reflexivity|].
  destruct (reapplied_confirmation None) as (_ & _ & _ & _ & Hmove).
  exact (Hmove 0%nat 0%nat 1%nat sample_one _ sample_one (get 0%nat sample_one)
               (mkDay "Monday" [0%nat] "" "#FFF4E6") (mkDay "Tuesday" [] "" "#FFE8CC")
               eq_refl eq_refl eq_refl eq_refl).
Defined.

(** C3 as stated fails for create: [sample_one] already reflects the
    confirmed create of task "42"; applying the same confirmed response
    again stores a second task with id "42" in Monday. (The same happens
    for a move, see [reapplied_confirmation].) *)
Lemma reapplied_create_counterexample :
  let a := addTask "uuid-1" 0 (input_newTaskDescription 0 "Call Bob" initial_state) in
  let ok := HttpOk (Some (Some "42"%string)) in
  let s1 := resume a ok (state_at_call a) in
  let s2 := resume a ok s1 in
  s1 = sample_one /\
  all_ids s1 = ["42"%string] /\
  all_ids s2 = ["42"%string; "42"%string] /\
  board s2 <> board s1.
Proof.
  repeat split. intros H.
  apply (f_equal (fun b => length <$> b)) in H. discriminate H.
Qed.

End Reapply.

(** ** The ids that the buckets show *)

Section UniqueIds.

Implicit Types (s : State) (h : list Task) (tss : list (list loc)) (ts : list loc).

Lemma all_ids_ids_in s : all_ids s = ids_in (heap s) (refs s).
Proof.
  unfold all_ids, board, ids_in, refs. generalize (days s). intros ds.
  induction ds as [|d ds IH]; [done|].
  rewrite !fmap_cons, !concat_cons, fmap_app, IH. f_equal.
  unfold bucket. now rewrite <- list_fmap_compose.
Qed.

Lemma ids_in_app h tss1 tss2 :
  ids_in h (tss1 ++ tss2) = ids_in h tss1 ++ ids_in h tss2.
Proof. unfold ids_in. now rewrite fmap_app, concat_app. Qed.

Lemma ids_in_cons h ts tss :
  ids_in h (ts :: tss) = ((fun l => id (h !!! l)) <$> ts) ++ ids_in h tss.
Proof. reflexivity. Qed.

Lemma ids_in_ext h h' tss :
  (forall ts l, ts ∈ tss -> l ∈ ts -> id (h !!! l) = id (h' !!! l)) ->
  ids_in h tss = ids_in h' tss.
Proof.
  intros H. unfold ids_in. f_equal. apply list_fmap_ext. intros i ts Hts.
  apply list_fmap_ext. intros j l Hl.
  apply (H ts l); apply list_elem_of_lookup; eauto.
Qed.

Lemma same_ids_all_ids s s' : same_ids s s' -> all_ids s' = all_ids s.
Proof.
  intros (Hd & _ & Hid). rewrite !all_ids_ids_in, Hd.
  apply ids_in_ext. intros d l _ _. apply Hid.
Qed.

Lemma same_ids_allocated s s' : same_ids s s' -> allocated s -> allocated s'.
Proof. intros (Hd & Hl & _) Ha d l. rewrite Hd, Hl. apply Ha. Qed.

Lemma same_ids_refl s : same_ids s s.
Proof. done. Qed.

Lemma same_ids_trans s1 s2 s3 : same_ids s1 s2 -> same_ids s2 s3 -> same_ids s1 s3.
Proof.
  intros (Hd & Hl & Hi) (Hd' & Hl' & Hi'). split; [congruence|].
  split; [congruence|]. intros l. now rewrite Hi', Hi.
Qed.

Lemma same_ids_mutate f task s :
  (forall t, id (f t) = id t) -> same_ids s (mutate f task s).
Proof.
  intros Hf. split; [done|]. split; [apply length_alter|].
  intros l. now apply (proj_get_mutate id).
Qed.

Lemma same_ids_globals s s' :
  refs s' = refs s -> heap s' = heap s -> same_ids s s'.
Proof. intros Hd Hh. unfold same_ids, get. now rewrite Hd, Hh. Qed.

Lemma refs_alter_keep (f : Day -> Day) (i : nat) (ds : list Day) :
  (forall d, tasks (f d) = tasks d) ->
  tasks <$> alter f i ds = tasks <$> ds.
Proof.
  intros Hf. revert i. induction ds as [|d ds IH]; intros [|i]; simpl; [done..| |].
  - now rewrite Hf.
  - f_equal. apply IH.
Qed.

Lemma same_ids_set_timers v s : same_ids s (set_timers v s).
Proof. done. Qed.

Lemma same_ids_set_isSwiping v s : same_ids s (set_isSwiping v s).
Proof. done. Qed.

Lemma same_ids_set_touchStart x y s : same_ids s (set_touchStart x y s).
Proof. done. Qed.

Lemma same_ids_step s1 s2 s3 : same_ids s2 s3 -> same_ids s1 s2 -> same_ids s1 s3.
Proof. intros H1 H2. now apply (same_ids_trans s1 s2 s3). Qed.

Ltac same_ids_chain :=
  repeat first
    [ apply same_ids_refl
    | eapply same_ids_step; [apply same_ids_mutate; done|]
    | eapply same_ids_step; [apply same_ids_set_timers|]
    | eapply same_ids_step; [apply same_ids_set_isSwiping|]
    | eapply same_ids_step; [apply same_ids_set_touchStart|] ].

Lemma ui_step_same_ids s s' : ui_step s s' -> same_ids s s'.
Proof.
  destruct 1.
  - apply same_ids_globals; [|done]. now apply refs_alter_keep.
  - now apply same_ids_mutate.
  - now apply same_ids_mutate.
  - unfold cancelTaskEdit, leave_edit. same_ids_chain.
  - unfold handleTouchStart. destruct (truthy _); [done|].
    destruct (touches e !! 0); [|done]. simpl. same_ids_chain.
  - unfold handleTouchMove. destruct (negb _ || _); [done|].
    destruct (touches e !! 0); [|done]. simpl.
    destruct (lock_check _ _ _); same_ids_chain.
  - unfold handleTouchEnd. destruct (negb _ || _); [done|].
    destruct (PrimFloat.leb _ _); [|destruct (PrimFloat.leb _ _)]; same_ids_chain.
  - unfold resetTaskSwipe. same_ids_chain.
  - done.
  - done.
  - now apply same_ids_mutate.
Qed.

Lemma refs_push_task (i : nat) (o : Task) s :
  refs (push_task i o s) = alter (fun ts => ts ++ [length (heap s)]) i (refs s).
Proof.
  unfold refs, push_task. simpl. generalize (days s). intros ds. revert i.
  induction ds as [|d ds IH]; intros [|i]; simpl; [done..|]. f_equal. apply IH.
Qed.

Lemma refs_remove_id (i : nat) (tid : string) s :
  refs (remove_id i tid s)
  = alter (filter (fun l => id (get l s) <> tid)) i (refs s).
Proof.
  unfold refs, remove_id. simpl. generalize (days s). intros ds. revert i.
  induction ds as [|d ds IH]; intros [|i]; simpl; [done..|]. f_equal. apply IH.
Qed.

Lemma alter_split {A} (g : A -> A) (i : nat) (l : list A) (x : A) :
  l !! i = Some x ->
  exists l1 l2, l = l1 ++ x :: l2 /\ alter g i l = l1 ++ g x :: l2.
Proof.
  intros H. destruct (list_elem_of_split_length l i x H) as (l1 & l2 & -> & ->).
  exists l1, l2. split; [done|].
  rewrite <- (Nat.add_0_r (length l1)). now rewrite alter_app_r.
Qed.

Lemma alter_absent {A} (g : A -> A) (i : nat) (l : list A) :
  l !! i = None -> alter g i l = l.
Proof.
  revert i. induction l as [|x l IH]; intros [|i] H; simpl; [done..|].
  f_equal. now apply IH.
Qed.

Lemma refs_lookup s (i : nat) (d : Day) :
  days s !! i = Some d -> refs s !! i = Some (tasks d).
Proof. intros H. unfold refs. now rewrite list_lookup_fmap, H. Qed.

Lemma allocated_lookup s (i : nat) (d : Day) (l : loc) :
  allocated s -> days s !! i = Some d -> l ∈ tasks d ->
  exists t, heap s !! l = Some t.
Proof.
  intros Ha Hd Hl. apply lookup_lt_is_Some_2, (Ha (tasks d)); [|done].
  apply list_elem_of_lookup. exists i. now apply refs_lookup.
Qed.

Lemma push_task_allocated (i : nat) (o : Task) s :
  allocated s -> allocated (push_task i o s).
Proof.
  intros Ha ts l. rewrite refs_push_task. change (heap (push_task i o s)) with (heap s ++ [o]).
  rewrite length_app. simpl.
  destruct (refs s !! i) as [ts0|] eqn:Hi.
  - destruct (alter_split (fun ts => ts ++ [length (heap s)]) i _ _ Hi)
      as (t1 & t2 & Hr & ->).
    rewrite !elem_of_app, elem_of_cons. intros [H|[->|H]] Hl.
    + assert (l < length (heap s)); [|lia].
      apply (Ha ts); [|done]. rewrite Hr, elem_of_app. auto.
    + apply elem_of_app in Hl as [Hl|Hl%list_elem_of_singleton]; [|lia].
      assert (l < length (heap s)); [|lia].
      apply (Ha ts0); [|done]. rewrite Hr, elem_of_app, elem_of_cons. auto.
    + assert (l < length (heap s)); [|lia].
      apply (Ha ts); [|done]. rewrite Hr, elem_of_app, elem_of_cons. auto.
  - rewrite alter_absent by done.
    intros Hts Hl. specialize (Ha ts l Hts Hl). lia.
Qed.

Lemma push_task_all_ids (i : nat) (o : Task) s (ts : list loc) :
  allocated s -> refs s !! i = Some ts ->
  all_ids (push_task i o s) ≡ₚ id o :: all_ids s.
Proof.
  intros Ha Hi. rewrite !all_ids_ids_in, refs_push_task.
  change (heap (push_task i o s)) with (heap s ++ [o]).
  rewrite (ids_in_ext (heap s) (heap s ++ [o]) (refs s)).
  2:{ intros ts' l Hts Hl. now rewrite lookup_total_app_l by (now apply (Ha ts')). }
  destruct (alter_split (fun ts => ts ++ [length (heap s)]) i _ _ Hi)
    as (t1 & t2 & -> & ->).
  rewrite !ids_in_app, !ids_in_cons, fmap_app. simpl.
  rewrite lookup_total_app_r, Nat.sub_diag by done. simpl.
  rewrite <- !app_assoc. simpl.
  rewrite !app_assoc. now rewrite <- Permutation_middle.
Qed.

Lemma fmap_filter_id (h : list Task) (tid : string) (ts : list loc) :
  (fun l => id (h !!! l)) <$> filter (fun l => id (h !!! l) <> tid) ts
  = filter (fun x => x <> tid) ((fun l => id (h !!! l)) <$> ts).
Proof.
  induction ts as [|l ts IH]; [done|].
  rewrite fmap_cons, !filter_cons. case_decide; [|done].
  now rewrite fmap_cons, IH.
Qed.

Lemma filter_neq_fresh (x : string) (l : list string) :
  x ∉ l -> filter (fun y => y <> x) l = l.
Proof.
  induction l as [|y l IH]; [done|]. rewrite not_elem_of_cons. intros [? ?].
  rewrite filter_cons, decide_True by done. now rewrite IH.
Qed.

Lemma remove_id_allocated (i : nat) (tid : string) s :
  allocated s -> allocated (remove_id i tid s).
Proof.
  intros Ha ts l. rewrite refs_remove_id. change (heap (remove_id i tid s)) with (heap s).
  destruct (refs s !! i) as [ts0|] eqn:Hi.
  - destruct (alter_split (filter (fun l => id (get l s) <> tid)) i _ _ Hi)
      as (t1 & t2 & Hr & ->).
    rewrite !elem_of_app, elem_of_cons. intros [H|[->|H]] Hl.
    + apply (Ha ts); [|done]. rewrite Hr, elem_of_app. auto.
    + apply list_elem_of_filter in Hl as [_ Hl].
      apply (Ha ts0); [|done]. rewrite Hr, elem_of_app, elem_of_cons. auto.
    + apply (Ha ts); [|done]. rewrite Hr, elem_of_app, elem_of_cons. auto.
  - rewrite alter_absent by done. apply Ha.
Qed.

Lemma remove_id_all_ids (i : nat) (tid : string) s (ts : list loc) (l : loc) :
  NoDup (all_ids s) -> refs s !! i = Some ts -> l ∈ ts -> id (get l s) = tid ->
  all_ids (remove_id i tid s) = filter (fun x => x <> tid) (all_ids s).
Proof.
  intros Hnd Hi Hl Hid. rewrite !all_ids_ids_in in *. rewrite refs_remove_id.
  change (heap (remove_id i tid s)) with (heap s).
  destruct (alter_split (filter (fun l => id (get l s) <> tid)) i _ _ Hi)
    as (t1 & t2 & Hr & ->).
  rewrite Hr in *. rewrite !ids_in_app, !ids_in_cons in *.
  assert (Hin : tid ∈ (fun l => id (heap s !!! l)) <$> ts).
  { apply list_elem_of_fmap. exists l. now split. }
  apply NoDup_app in Hnd as (_ & H1 & Hnd).
  apply NoDup_app in Hnd as (_ & H2 & _).
  rewrite !filter_app. unfold get. rewrite fmap_filter_id.
  rewrite (filter_neq_fresh tid (ids_in (heap s) t1)).
  2:{ intros H. apply (H1 tid H). rewrite elem_of_app. auto. }
  rewrite (filter_neq_fresh tid (ids_in (heap s) t2)); [done|].
  intros H. now apply (H2 tid Hin).
Qed.

Lemma board_ok_same_ids s s' live : same_ids s s' -> board_ok s live -> board_ok s' live.
Proof.
  intros H (Ha & Hn & Hl). unfold board_ok.
  rewrite (same_ids_all_ids s s' H). eauto using same_ids_allocated.
Qed.

Lemma board_ok_push (i : nat) (o : Task) s live (d : Day) :
  days s !! i = Some d -> id o ∉ live -> board_ok s live ->
  board_ok (push_task i o s) (live ++ [id o]).
Proof.
  intros Hd Hf (Ha & Hn & Hl).
  pose proof (push_task_all_ids i o s _ Ha (refs_lookup s i d Hd)) as Hp.
  split; [now apply push_task_allocated|]. split.
  - rewrite Hp. apply NoDup_cons. split; [|done]. now rewrite Hl.
  - intros x. rewrite Hp, elem_of_cons, elem_of_app, list_elem_of_singleton, Hl. tauto.
Qed.

Lemma board_ok_remove (i : nat) s live (d : Day) (l : loc) :
  days s !! i = Some d -> l ∈ tasks d -> board_ok s live ->
  board_ok (remove_id i (id (get l s)) s) (filter (fun x => x <> id (get l s)) live).
Proof.
  intros Hd Hin (Ha & Hn & Hl).
  pose proof (remove_id_all_ids i _ s _ l Hn (refs_lookup s i d Hd) Hin eq_refl) as Hr.
  split; [now apply remove_id_allocated|]. rewrite Hr. split.
  - now apply NoDup_filter.
  - intros x. rewrite !list_elem_of_filter, Hl. tauto.
Qed.

Lemma board_ok_move s live (fromDayIndex : nat) (task : loc) (toDayIndex : nat)
      (d : Day) json :
  days s !! fromDayIndex = Some d -> task ∈ tasks d ->
  board_ok s live ->
  board_ok (run (moveTask fromDayIndex task toDayIndex) (HttpOk json) s) live.
Proof.
  intros Hd Hin Hok. unfold run, moveTask.
  case_decide as Hne; [done|].
  destruct (days s !! toDayIndex) as [dto|] eqn:Hto; [|done]. simpl.
  destruct (allocated_lookup s _ d task (proj1 Hok) Hd Hin) as [t Ht].
  destruct (moveTask_ok_spec fromDayIndex task toDayIndex s t d dto Hne Ht Hd Hto)
    as (-> & _).
  pose proof (get_allocated _ _ _ Ht) as Hg.
  pose proof (board_ok_remove fromDayIndex s live d task Hd Hin Hok) as Hrm.
  rewrite Hg in Hrm.
  assert (Hto' : days (remove_id fromDayIndex (id t) s) !! toDayIndex = Some dto)
    by (simpl; now rewrite list_lookup_alter_ne).
  assert (Hfresh : id (fresh_task (id t) (description t) (completed t))
                   ∉ filter (fun x => x <> id t) live)
    by (rewrite list_elem_of_filter; simpl; tauto).
  pose proof (board_ok_push toDayIndex _ _ _ dto Hto' Hfresh Hrm) as (Ha & Hn & Hl).
  split; [exact Ha|]. split; [exact Hn|].
  intros x. rewrite Hl, elem_of_app, list_elem_of_filter, list_elem_of_singleton.
  simpl. destruct Hok as (_ & _ & Hlive).
  assert (id t ∈ live).
  { apply Hlive. rewrite all_ids_ids_in. unfold ids_in.
    apply list_elem_of_In, in_concat.
    exists ((fun l => id (heap s !!! l)) <$> tasks d). split.
    - apply list_elem_of_In, list_elem_of_fmap. exists (tasks d). split; [done|].
      apply list_elem_of_lookup. exists fromDayIndex. now apply refs_lookup.
    - apply list_elem_of_In, list_elem_of_fmap. exists task. split; [|done].
      unfold get in Hg. now rewrite Hg. }
  destruct (decide (x = id t)) as [->|]; tauto.
Qed.

Lemma same_ids_call (op : Op) s : same_ids s (state_at_call (call op s)).
Proof.
  destruct op; simpl.
  - unfold addTask. destruct (days s !! dayIndex); [|done]. case_decide; done.
  - unfold toggleTask. destruct (days s !! dayIndex); [|done].
    destruct (List.find _ _); done.
  - unfold saveTaskEdit. destruct (editingText _); [case_decide|]; simpl;
      unfold leave_edit; same_ids_chain.
  - unfold moveTask. case_decide; [done|]. destruct (days s !! toDayIndex); done.
  - done.
  - unfold fireTimer. destruct (timers s !! n); done.
Qed.

Lemma same_ids_resume_toggle now (dayIndex : nat) taskId (si : State) res s :
  same_ids s (resume (toggleTask now dayIndex taskId si) res s).
Proof.
  unfold toggleTask. destruct (days si !! dayIndex); [|done].
  destruct (List.find _ _); [|done]. simpl.
  destruct res; [done..|]. now apply same_ids_mutate.
Qed.

Lemma same_ids_resume_rename (task : loc) (si : State) res s :
  same_ids s (resume (saveTaskEdit task si) res s).
Proof.
  unfold saveTaskEdit. destruct (editingText _); [|done]. case_decide; [done|].
  simpl. destruct res; unfold leave_edit; same_ids_chain.
Qed.

Lemma allocated_initial : allocated initial_state.
Proof.
  intros ts l Hts Hl. apply list_elem_of_lookup in Hts as [i Hi].
  do 8 (destruct i as [|i]; [injection Hi as <-; inversion Hl|]).
  discriminate Hi.
Qed.

End UniqueIds.

(** ** The board as task values *)

Section BoardViews.

Implicit Types (s : State) (h objs : list Task) (ts : list loc) (d : Day).

Lemma allocated_day s d (l : loc) :
  allocated s -> d ∈ days s -> l ∈ tasks d -> l < length (heap s).
Proof.
  intros Ha Hd Hl. apply (Ha (tasks d)); [|done].
  unfold refs. now apply list_elem_of_fmap_2.
Qed.

(** Buckets read the same after the store has grown. *)
Lemma bucket_heap_app s objs d :
  allocated s -> d ∈ days s ->
  (fun l => (heap s ++ objs) !!! l) <$> tasks d = bucket s d.
Proof.
  intros Ha Hd. unfold bucket, get. apply list_fmap_ext. intros k l Hl.
  apply lookup_total_app_l. apply (allocated_day s d); [done..|].
  apply list_elem_of_lookup. eauto.
Qed.

Lemma fmap_seq_new h objs :
  (fun l => (h ++ objs) !!! l) <$> seq (length h) (length objs) = objs.
Proof.
  revert h. induction objs as [|o objs IH]; intros h; [done|].
  simpl. rewrite list_lookup_total_middle by done. f_equal.
  specialize (IH (h ++ [o])). rewrite length_app, <- app_assoc in IH. simpl in IH.
  now rewrite Nat.add_1_r in IH.
Qed.

(** The board after the tasks of bucket [i] become the values [f b] of new
    or old references [g ts], the store growing by [objs]. *)
Lemma board_alter s (i : nat) (g : list loc -> list loc) objs
      (f : list Task -> list Task) :
  allocated s ->
  (forall d, d ∈ days s ->
     (fun l => (heap s ++ objs) !!! l) <$> g (tasks d) = f (bucket s d)) ->
  board (set_days (alter (fun d => set_tasks (g (tasks d)) d) i (days s))
                  (set_heap (heap s ++ objs) s))
  = alter f i (board s).
Proof.
  intros Ha Hg. unfold board. simpl. apply list_eq. intros j.
  rewrite list_lookup_fmap, !list_lookup_alter, !list_lookup_fmap.
  case_decide as Hij.
  - subst j. destruct (days s !! i) as [d|] eqn:Hd; [|done]. simpl. f_equal.
    unfold bucket at 1, get. simpl. apply Hg.
    apply list_elem_of_lookup. eauto.
  - destruct (days s !! j) as [d|] eqn:Hd; [|done]. simpl. f_equal.
    unfold bucket at 1, get. simpl. apply bucket_heap_app; [done|].
    apply list_elem_of_lookup. eauto.
Qed.

Lemma alter_const_insert {A} (x : A) (i : nat) (l : list A) :
  alter (fun _ => x) i l = <[i:=x]> l.
Proof.
  revert i. induction l as [|y l IH]; intros [|i]; simpl; [done..|].
  f_equal. apply IH.
Qed.

Lemma assign_tasks_board s (i : nat) objs :
  allocated s -> board (assign_tasks i objs s) = <[i:=objs]> (board s).
Proof.
  intros Ha. rewrite <- alter_const_insert. unfold assign_tasks.
  apply (board_alter s i (fun _ => seq (length (heap s)) (length objs)) objs
                     (fun _ => objs)); [done|].
  intros d _. apply fmap_seq_new.
Qed.

Lemma assign_tasks_allocated s (i : nat) objs :
  allocated s -> allocated (assign_tasks i objs s).
Proof.
  intros Ha ts l Hts Hl. unfold assign_tasks, refs in *. simpl in *.
  rewrite length_app.
  apply list_elem_of_fmap in Hts as (d' & -> & Hd').
  apply list_elem_of_lookup in Hd' as [j Hj].
  rewrite list_lookup_alter in Hj. case_decide.
  - destruct (days s !! i); [|done]. simpl in Hj. injection Hj as <-. simpl in Hl.
    apply elem_of_seq in Hl. lia.
  - assert (l < length (heap s)); [|lia].
    apply (allocated_day s d'); [done| |done]. apply list_elem_of_lookup. eauto.
Qed.

End BoardViews.

(** ** Every id is stored once *)

Section Runs.

Implicit Types (s si : State) (p : list InFlight) (f g : InFlight) (live : list string).

Lemma omap_singleton {A B} (h : A -> option B) (a : A) :
  omap h [a] = match h a with Some y => [y] | None => [] end.
Proof. reflexivity. Qed.

Lemma omap_mid_elem {A B} (h : A -> option B) (l1 l2 : list A) (a : A) (x : B) :
  x ∈ omap h (l1 ++ l2) -> x ∈ omap h (l1 ++ a :: l2).
Proof.
  rewrite !omap_app, !elem_of_app. simpl.
  destruct (h a); rewrite ?elem_of_cons; tauto.
Qed.

Lemma omap_mid_here {A B} (h : A -> option B) (l1 l2 : list A) (a : A) (x : B) :
  h a = Some x -> x ∈ omap h (l1 ++ a :: l2).
Proof.
  intros H. rewrite omap_app, elem_of_app. right. simpl. rewrite H.
  apply list_elem_of_here.
Qed.

Lemma omap_mid_NoDup {A B} (h : A -> option B) (l1 l2 : list A) (a : A) :
  NoDup (omap h (l1 ++ a :: l2)) ->
  NoDup (omap h (l1 ++ l2)) /\ forall x, h a = Some x -> x ∉ omap h (l1 ++ l2).
Proof.
  rewrite !omap_app. simpl. destruct (h a) as [y|].
  - rewrite <- Permutation_middle. intros [Hy Hn]%NoDup_cons.
    split; [done|]. now intros x [= <-].
  - intros H. split; [done|]. intros x Hx. discriminate Hx.
Qed.

Lemma omap_elem {A B} (h : A -> option B) (l : list A) (a : A) (x : B) :
  a ∈ l -> h a = Some x -> x ∈ omap h l.
Proof.
  intros Ha Hx. apply list_elem_of_split in Ha as (l1 & l2 & ->).
  now apply omap_mid_here.
Qed.

Lemma filter_keep_all {A} (P : A -> Prop) `{!forall x, Decision (P x)} (l : list A) :
  Forall P l -> filter P l = l.
Proof.
  induction 1 as [|x l Hx _ IH]; [done|].
  rewrite filter_cons, decide_True by done. now rewrite IH.
Qed.

(** *** What the requests in flight rely on is kept *)

Lemma shown_refs s (i : nat) (l : loc) :
  shown s i l <-> exists ts, refs s !! i = Some ts /\ l ∈ ts.
Proof.
  unfold shown, refs. split.
  - intros (d & Hd & Hl). exists (tasks d). now rewrite list_lookup_fmap, Hd.
  - intros (ts & H & Hl). rewrite list_lookup_fmap in H.
    destruct (days s !! i) as [d|]; [|done]. injection H as <-. eauto.
Qed.

Lemma same_ids_days_length s s' : same_ids s s' -> length (days s') = length (days s).
Proof.
  intros (Hr & _). apply (f_equal length) in Hr. unfold refs in Hr.
  now rewrite !length_fmap in Hr.
Qed.

Lemma in_flight_ok_same_ids s s' f :
  same_ids s s' -> in_flight_ok s f -> in_flight_ok s' f.
Proof.
  intros Hsame [Hreq H]. split; [done|]. clear Hreq.
  pose proof (same_ids_days_length s s' Hsame) as Hlen.
  destruct Hsame as (Hr & _ & Hid).
  destruct f as [[] si]; simpl in *; try done.
  - now rewrite Hlen.
  - destruct H as (Hs & Hi & Ht). rewrite Hlen, Hid. split; [|done].
    apply shown_refs. rewrite Hr. now apply shown_refs.
Qed.

Lemma shown_allocated s (i : nat) (l : loc) :
  allocated s -> shown s i l -> l < length (heap s).
Proof.
  intros Ha (ts & Hts & Hl)%shown_refs. apply (Ha ts); [|done].
  apply list_elem_of_lookup. eauto.
Qed.

Lemma in_flight_ok_push (i : nat) (o : Task) s f :
  allocated s -> in_flight_ok s f -> in_flight_ok (push_task i o s) f.
Proof.
  intros Ha [Hreq H]. split; [done|]. clear Hreq.
  destruct f as [[] si]; simpl in *; try done.
  - now rewrite length_alter.
  - destruct H as (Hs & Hi & Ht). rewrite length_alter.
    split; [|split; [|done]].
    + destruct Hs as (d & Hd & Hl). unfold shown. simpl.
      destruct (decide (i = fromDayIndex)) as [->|Hne].
      * rewrite list_lookup_alter_eq, Hd. simpl. eexists. split; [done|].
        simpl. rewrite elem_of_app. auto.
      * rewrite list_lookup_alter_ne by done. eauto.
    + rewrite <- Hi. unfold get. simpl.
      now rewrite lookup_total_app_l by (now apply (shown_allocated s fromDayIndex)).
Qed.

Lemma in_flight_ok_remove (i : nat) (tid : string) s f :
  (forall x, moved_id f = Some x -> x <> tid) ->
  in_flight_ok s f -> in_flight_ok (remove_id i tid s) f.
Proof.
  intros Hx [Hreq H]. split; [done|]. clear Hreq.
  destruct f as [[] si]; simpl in *; try done.
  - now rewrite length_alter.
  - destruct H as (Hs & Hi & Ht). rewrite length_alter. split; [|done].
    destruct Hs as (d & Hd & Hl). unfold shown. simpl.
    destruct (decide (i = fromDayIndex)) as [->|Hne].
    + rewrite list_lookup_alter_eq, Hd. simpl. eexists. split; [done|].
      simpl. apply list_elem_of_filter. split; [|done].
      rewrite Hi. now apply Hx.
    + rewrite list_lookup_alter_ne by done. eauto.
Qed.

Lemma in_flight_ok_assign (i : nat) (objs : list Task) s f :
  allocated s ->
  (forall t toDayIndex, flight_op f <> Move i t toDayIndex) ->
  in_flight_ok s f -> in_flight_ok (assign_tasks i objs s) f.
Proof.
  intros Ha Hne [Hreq H]. split; [done|]. clear Hreq.
  destruct f as [[] si]; simpl in *; try done.
  - now rewrite length_alter.
  - destruct H as (Hs & Hi & Ht). rewrite length_alter.
    assert (i <> fromDayIndex) by (intros ->; now apply (Hne task toDayIndex)).
    split; [|split; [|done]].
    + destruct Hs as (d & Hd & Hl). unfold shown. simpl.
      rewrite list_lookup_alter_ne by done. eauto.
    + rewrite <- Hi. unfold get. simpl.
      now rewrite lookup_total_app_l by (now apply (shown_allocated s fromDayIndex)).
Qed.

Lemma moveTask_ok_eq (fromDayIndex : nat) (task : loc) (toDayIndex : nat) s :
  shown s fromDayIndex task -> toDayIndex < length (days s) ->
  moveTask_ok fromDayIndex task toDayIndex s
  = push_task toDayIndex
      (fresh_task (id (get task s)) (description (get task s)) (completed (get task s)))
      (remove_id fromDayIndex (id (get task s)) s).
Proof.
  intros (d & Hd & _) Hlt. unfold moveTask_ok. rewrite Hd.
  destruct (lookup_lt_is_Some_2 (days (remove_id fromDayIndex (id (get task s)) s))
              toDayIndex) as [dto Hto].
  { simpl. now rewrite length_alter. }
  cbv zeta. now rewrite Hto.
Qed.

Lemma in_flight_ok_deleteTask_ok (dayIndex : nat) (tid : string) s f :
  (forall x, moved_id f = Some x -> x <> tid) ->
  in_flight_ok s f -> in_flight_ok (deleteTask_ok dayIndex tid s) f.
Proof.
  intros Hx H. unfold deleteTask_ok. destruct (days s !! dayIndex); [|done].
  apply (in_flight_ok_same_ids (remove_id dayIndex tid s)).
  - now apply same_ids_globals.
  - now apply in_flight_ok_remove.
Qed.

(** *** The board after a response *)

Lemma board_ok_addTask_ok s live uuid (dayIndex : nat) desc (i : option string) :
  dayIndex < length (days s) -> default uuid i ∉ live ->
  board_ok s live ->
  board_ok (addTask_ok uuid dayIndex desc (Some i) s) (live ++ [default uuid i]).
Proof.
  intros Hlt Hf Hok. destruct (lookup_lt_is_Some_2 _ _ Hlt) as [d Hd].
  unfold addTask_ok.
  eapply board_ok_same_ids;
    [|exact (board_ok_push dayIndex (fresh_task (default uuid i) desc false)
               s live d Hd Hf Hok)].
  apply same_ids_globals; [|done]. now apply refs_alter_keep.
Qed.

Lemma board_ok_moveTask_ok s live (fromDayIndex : nat) (task : loc) (toDayIndex : nat) :
  fromDayIndex <> toDayIndex ->
  shown s fromDayIndex task -> toDayIndex < length (days s) ->
  board_ok s live ->
  board_ok (moveTask_ok fromDayIndex task toDayIndex s) live.
Proof.
  intros Hne (d & Hd & Hin) Hlt Hok.
  destruct (lookup_lt_is_Some_2 _ _ Hlt) as [dto Hto].
  pose proof (board_ok_move s live fromDayIndex task toDayIndex d None Hd Hin Hok) as H.
  unfold run, moveTask in H. rewrite decide_False, Hto in H by done. exact H.
Qed.

Lemma board_ok_deleteTask_ok s live (dayIndex : nat) (tid : string) :
  board_ok s live ->
  board_ok (deleteTask_ok dayIndex tid s) (without dayIndex tid s live).
Proof.
  intros Hok. unfold deleteTask_ok, without, bucket_ids.
  destruct (days s !! dayIndex) as [d|] eqn:Hd.
  2:{ now rewrite bool_decide_eq_false_2 by apply not_elem_of_nil. }
  case_bool_decide as Hin.
  - apply list_elem_of_fmap in Hin as (t & -> & Ht). unfold bucket in Ht.
    apply list_elem_of_fmap in Ht as (l & -> & Hl).
    eapply board_ok_same_ids; [|exact (board_ok_remove dayIndex s live d l Hd Hl Hok)].
    now apply same_ids_globals.
  - eapply board_ok_same_ids; [|exact Hok].
    apply same_ids_globals; [|done].
    change (refs (remove_id dayIndex tid s) = refs s). rewrite refs_remove_id.
    destruct (alter_split (filter (fun l => id (get l s) <> tid)) dayIndex _ _
                (refs_lookup s dayIndex d Hd)) as (t1 & t2 & Hr & ->).
    rewrite Hr. do 2 f_equal. apply filter_keep_all, Forall_forall.
    intros l Hl Heq. apply Hin, list_elem_of_fmap. exists (get l s). split; [done|].
    unfold bucket. apply list_elem_of_fmap. eauto.
Qed.

Lemma replace_middle (A B C new live : list string) :
  NoDup (A ++ B ++ C) -> (forall x, x ∈ A ++ B ++ C <-> x ∈ live) ->
  NoDup new -> (forall x, x ∈ new -> x ∈ A ++ B ++ C -> x ∈ B) ->
  NoDup (A ++ new ++ C) /\
  forall x, x ∈ A ++ new ++ C <-> x ∈ filter (fun x => x ∉ B) live ++ new.
Proof.
  rewrite !NoDup_app. intros (HA & HAB & HB & HBC & HC) Hl Hnew Hf.
  assert (HAn : forall x, x ∈ A -> x ∉ new).
  { intros x Hx Hn. apply (HAB x Hx). rewrite elem_of_app. left.
    apply Hf; [done|]. rewrite elem_of_app. auto. }
  assert (HnC : forall x, x ∈ new -> x ∉ C).
  { intros x Hn Hx. apply (HBC x); [|done].
    apply Hf; [done|]. rewrite !elem_of_app. auto. }
  split.
  - split; [done|]. split; [|split; [done|split; done]].
    intros x Hx. rewrite elem_of_app. intros [Hn|Hc].
    + now apply (HAn x).
    + apply (HAB x Hx). rewrite elem_of_app. auto.
  - intros x. rewrite !elem_of_app, list_elem_of_filter, <- Hl, !elem_of_app.
    split.
    + intros [Hx|[Hx|Hx]]; [left|now right|left].
      * split; [|auto]. intros Hb. apply (HAB x Hx). rewrite elem_of_app. auto.
      * split; [|auto]. intros Hb. now apply (HBC x).
    + intros [[Hb [Hx|[Hx|Hx]]]|Hx]; auto. done.
Qed.

Lemma board_ok_assign s live (i : nat) (d : Day) (objs : list Task) :
  days s !! i = Some d ->
  NoDup (id <$> objs) ->
  (forall x, x ∈ id <$> objs -> x ∈ all_ids s -> x ∈ bucket_ids s i) ->
  board_ok s live ->
  board_ok (assign_tasks i objs s)
           (filter (fun x => x ∉ bucket_ids s i) live ++ (id <$> objs)).
Proof.
  intros Hd Hnd Hfresh (Ha & Hn & Hl).
  split; [now apply assign_tasks_allocated|].
  unfold all_ids in *. rewrite assign_tasks_board by done.
  unfold bucket_ids in *. rewrite Hd in *.
  assert (Hb : board s !! i = Some (bucket s d))
    by (unfold board; now rewrite list_lookup_fmap, Hd).
  destruct (list_elem_of_split_length _ _ _ Hb) as (b1 & b2 & Hbs & Hlen).
  rewrite Hbs in *. rewrite Hlen.
  rewrite insert_app_r_alt, Nat.sub_diag by lia. simpl.
  rewrite !concat_app, !concat_cons, !fmap_app in *.
  now apply replace_middle.
Qed.

Lemma board_ok_load (uuid : nat -> string) (i : nat) (res : GetResponse) s live
      (d : Day) :
  days s !! i = Some d -> store_rows_fresh uuid i res s ->
  board_ok s live ->
  board_ok (load_day uuid i res s) (live_after_load uuid i res s live).
Proof.
  intros Hd Hrows Hok. destruct res as [| |[payload|]]; simpl in *.
  - rewrite <- (app_nil_r (filter _ live)).
    apply (board_ok_assign s live i d []); [done|apply NoDup_nil_2| |done].
    intros x Hx. inversion Hx.
  - done.
  - destruct Hrows as [Hnd Hfresh]. now apply (board_ok_assign s live i d).
  - rewrite <- (app_nil_r (filter _ live)).
    apply (board_ok_assign s live i d []); [done|apply NoDup_nil_2| |done].
    intros x Hx. inversion Hx.
Qed.

(** *** The invariant is kept by every step *)

Lemma config_ok_same_ids s s' p live :
  same_ids s s' -> config_ok s p live -> config_ok s' p live.
Proof.
  intros Hsame (Hok & Hnd & Hmd & Hfl).
  split; [eauto using board_ok_same_ids|]. split; [done|]. split; [done|].
  eapply Forall_impl; [exact Hfl|]. intros g. now apply in_flight_ok_same_ids.
Qed.

Lemma config_ok_load (uuid : nat -> string) (i : nat) (res : GetResponse) s p live
      (d : Day) :
  days s !! i = Some d -> store_rows_fresh uuid i res s ->
  (res <> GetHttpError ->
   forall f t toDayIndex, f ∈ p -> flight_op f <> Move i t toDayIndex) ->
  config_ok s p live ->
  config_ok (load_day uuid i res s) p (live_after_load uuid i res s live).
Proof.
  intros Hd Hrows Hmv (Hok & Hnd & Hmd & Hfl).
  split; [now apply (board_ok_load uuid i res s live d)|].
  split; [done|]. split; [done|].
  apply Forall_forall. intros g Hg. rewrite Forall_forall in Hfl.
  destruct res as [| |[payload|]]; simpl;
    [|now apply Hfl|..];
    (apply in_flight_ok_assign; [apply Hok| |now apply Hfl];
     intros t toDayIndex; now apply (Hmv ltac:(done) g)).
Qed.

Lemma config_ok_request s p live (op : Op) (req : Request) :
  config_ok s p live ->
  request_of (call op s) = Some req ->
  from_row op s ->
  no_conflict (mkInFlight op s) p ->
  config_ok (state_at_call (call op s)) (p ++ [mkInFlight op s]) live.
Proof.
  intros (Hok & Hnd & Hmd & Hfl) Hreq Hrow [Hc1 Hc2].
  pose proof (same_ids_call op s) as Hsame.
  split; [eauto using board_ok_same_ids|].
  unfold moving, deleting in *. rewrite !omap_app, !omap_singleton.
  split; [|split].
  - destruct (moved_id (mkInFlight op s)) as [x|] eqn:Hx; [|now rewrite app_nil_r].
    apply NoDup_app. split; [done|]. split; [|apply NoDup_singleton].
    intros y Hy ->%list_elem_of_singleton. now apply (proj1 (Hc1 x eq_refl)).
  - intros x. rewrite !elem_of_app. intros [Hx|Hx] [Hd|Hd].
    + now apply (Hmd x).
    + destruct (deleted_id (mkInFlight op s)) as [y|] eqn:Hy; [|inversion Hd].
      apply list_elem_of_singleton in Hd as ->. now apply (Hc2 y eq_refl).
    + destruct (moved_id (mkInFlight op s)) as [y|] eqn:Hy; [|inversion Hx].
      apply list_elem_of_singleton in Hx as ->. now apply (proj2 (Hc1 y eq_refl)).
    + destruct op; simpl in *; inversion Hx; inversion Hd.
  - apply Forall_app. split.
    + eapply Forall_impl; [exact Hfl|]. intros g. now apply in_flight_ok_same_ids.
    + apply Forall_singleton. split; [unfold suspended; simpl; rewrite Hreq; eauto|].
      simpl. destruct op; try done; simpl in *.
      * unfold addTask in *. destruct (days s !! dayIndex) eqn:Hday; [|done].
        case_decide; [done|]. simpl. eapply lookup_lt_Some; eauto.
      * unfold moveTask in *. case_decide; [done|].
        destruct (days s !! toDayIndex) eqn:Hto; [|done]. simpl.
        split; [done|]. split; [done|]. eapply lookup_lt_Some; eauto.
Qed.

Lemma config_ok_response s p1 f p2 live (res : Response) :
  config_ok s (p1 ++ f :: p2) live ->
  store_id_fresh f res live ->
  config_ok (resume (suspended f) res s) (p1 ++ p2) (live_after f res s live).
Proof.
  intros (Hok & Hnd & Hmd & Hfl) Hfresh. unfold moving, deleting in *.
  destruct (omap_mid_NoDup _ _ _ _ Hnd) as [Hnd' Hfm].
  assert (Hmd' : forall x, x ∈ omap moved_id (p1 ++ p2) ->
                           x ∉ omap deleted_id (p1 ++ p2)).
  { intros x Hx Hd. apply (Hmd x); now apply omap_mid_elem. }
  assert (Hfd : forall x y g, deleted_id f = Some x -> g ∈ p1 ++ p2 ->
                              moved_id g = Some y -> y <> x).
  { intros x y g Hx Hg Hy ->. apply (Hmd x).
    - apply omap_mid_elem. now apply (omap_elem _ _ g).
    - now apply omap_mid_here. }
  assert (Hfm' : forall x y g, moved_id f = Some x -> g ∈ p1 ++ p2 ->
                               moved_id g = Some y -> y <> x).
  { intros x y g Hx Hg Hy ->. apply (Hfm x Hx). now apply (omap_elem _ _ g). }
  apply Forall_app in Hfl as [Hfl1 [Hf Hfl2]%Forall_cons].
  assert (Hrest : forall g, g ∈ p1 ++ p2 -> in_flight_ok s g).
  { apply Forall_forall, Forall_app. done. }
  clear Hnd Hmd Hfl1 Hfl2 Hfm.
  enough (board_ok (resume (suspended f) res s) (live_after f res s live) /\
          forall g, g ∈ p1 ++ p2 -> in_flight_ok (resume (suspended f) res s) g)
    as [H1 H2].
  { split; [done|]. split; [done|]. split; [done|]. now apply Forall_forall. }
  destruct f as [op si]. destruct Hf as [Hreq Hf]. unfold suspended in *.
  unfold live_after, store_id_fresh in *. simpl in Hreq, Hf, Hfresh, Hfd, Hfm' |- *.
  destruct op; simpl in *.
  - unfold addTask in *. destruct (days si !! dayIndex) as [dsi|];
      [|now apply is_Some_None in Hreq].
    case_decide; [now apply is_Some_None in Hreq|]. simpl.
    destruct res as [| |[i|]]; simpl; try (split; assumption).
    split; [now apply board_ok_addTask_ok|].
    intros g Hg. unfold addTask_ok.
    eapply in_flight_ok_same_ids;
      [|apply in_flight_ok_push; [apply Hok|now apply Hrest]].
    apply same_ids_globals; [|done]. now apply refs_alter_keep.
  - assert (Hl : match res with HttpOk _ => live | _ => live end = live)
      by (now destruct res).
    rewrite Hl. split.
    + eapply board_ok_same_ids; [apply same_ids_resume_toggle|done].
    + intros g Hg. eapply in_flight_ok_same_ids;
        [apply same_ids_resume_toggle|now apply Hrest].
  - assert (Hl : match res with HttpOk _ => live | _ => live end = live)
      by (now destruct res).
    rewrite Hl. split.
    + eapply board_ok_same_ids; [apply same_ids_resume_rename|done].
    + intros g Hg. eapply in_flight_ok_same_ids;
        [apply same_ids_resume_rename|now apply Hrest].
  - unfold moveTask in *. case_decide as Hne; [now apply is_Some_None in Hreq|].
    destruct (days si !! toDayIndex); [|now apply is_Some_None in Hreq]. simpl.
    destruct Hf as (Hs & Hi & Ht).
    destruct res; simpl; try (split; assumption).
    split; [now apply board_ok_moveTask_ok|].
    intros g Hg. rewrite moveTask_ok_eq by done.
    apply in_flight_ok_push; [apply remove_id_allocated, Hok|].
    apply in_flight_ok_remove; [|now apply Hrest].
    intros y Hy. rewrite Hi. now apply (Hfm' _ y g eq_refl).
  - destruct res; simpl; try (split; assumption).
    split; [now apply board_ok_deleteTask_ok|].
    intros g Hg. apply in_flight_ok_deleteTask_ok; [|now apply Hrest].
    intros y Hy. now apply (Hfd _ y g eq_refl).
  - unfold fireTimer in *. destruct (timers si !! n) as [tm|] eqn:Htm; simpl in *;
      [|now apply is_Some_None in Hreq].
    assert (Hdel : deleted_id (mkInFlight (Fire n) si)
                   = Some (id (get (timer_task tm) si)))
      by (unfold deleted_id; simpl; now rewrite Htm).
    destruct res; simpl; try (split; assumption).
    split; [now apply board_ok_deleteTask_ok|].
    intros g Hg. apply in_flight_ok_deleteTask_ok; [|now apply Hrest].
    intros y Hy. now apply (Hfd _ y g Hdel).
Qed.

(** C1, as amended. Start from a board whose references are allocated and
    whose ids are pairwise distinct (the empty board is one), and let the
    page run: handlers, iterations of the loading loop, calls of create,
    toggle, rename, move and delete (from the page or from the timer of a
    swipe) and their responses, successes and failures, arriving in any
    order while other requests are in flight. If a move is called with the
    day that shows the task, no move of a task overlaps another move or a
    delete of the same id, the id returned for a create is new, and the
    rows loaded for a day have distinct ids that no other day shows and
    replace no list that a move in flight is leaving, then in every state of
    the run no id is stored twice, within a bucket or across buckets, and the
    ids stored are exactly the ids that were there, were loaded or were
    created and have not been deleted or replaced: no task is duplicated
    and none is orphaned. *)
Theorem each_id_in_exactly_one_bucket (s0 s : State) (p : list InFlight)
        (live : list string) :
  allocated s0 -> NoDup (all_ids s0) ->
  reachable s0 s p live ->
  NoDup (all_ids s) /\ (forall x, x ∈ all_ids s <-> x ∈ live).
Proof.
  intros Ha Hn Hr.
  assert (Hok : config_ok s p live); [|destruct Hok as ((_ & ? & ?) & _); done].
  induction Hr as [| s s' p live Hr IH Hui
                   | s p live uuid i res d Hr IH Hd Hrows Hmv
                   | s p live op Hr IH Hreq
                   | s p live op req Hr IH Hreq Hrow Hc
                   | s p1 f p2 live res Hr IH Hfresh].
  - split; [done|]. split; [apply NoDup_nil_2|]. split; [|apply Forall_nil_2].
    intros x Hx. inversion Hx.
  - eauto using config_ok_same_ids, ui_step_same_ids.
  - eauto using config_ok_load.
  - eauto using config_ok_same_ids, same_ids_call.
  - eauto using config_ok_request.
  - eauto using config_ok_response.
Qed.

Lemma reachable_sample_one : reachable initial_state sample_one [] ["42"]%string.
Proof.
  pose (s := input_newTaskDescription 0 "Call Bob" initial_state).
  apply (reach_response _ s [] (mkInFlight (Create "uuid-1" 0) s) [] []
           (HttpOk (Some (Some "42"%string)))); [|apply not_elem_of_nil].
  apply (reach_request _ s [] [] (Create "uuid-1" 0)
           (mkRequest POST "/api/tasks" (Some (CreateBody "Call Bob" "Monday"))));
    [|reflexivity|exact I|].
  - apply (reach_ui _ initial_state); [apply reach_start|apply ui_input_new].
  - split; intros x Hx; [split; apply not_elem_of_nil|apply not_elem_of_nil].
Qed.

Lemma reachable_sample_overlap :
  reachable initial_state sample_overlap [] ["42"; "43"]%string.
Proof.
  pose (f1 := mkInFlight (Create "uuid-2" 0) sample_typing).
  pose (f2 := mkInFlight (Move 0 0 1) sample_typing).
  apply (reach_response _ (resume (suspended f2) (HttpOk None) sample_typing)
           [] f1 [] ["42"%string] (HttpOk (Some (Some "43"%string)))).
  2:{ change ("43"%string ∉ ["42"%string]). rewrite list_elem_of_singleton.
      discriminate. }
  apply (reach_response _ sample_typing [f1] f2 [] ["42"%string] (HttpOk None));
    [|exact I].
  apply (reach_request _ sample_typing [f1] ["42"%string] (Move 0 0 1)
           (mkRequest PUT "/api/tasks/42" (Some (DayBody "Tuesday"))));
    [|reflexivity| |].
  - apply (reach_request _ sample_typing [] ["42"%string] (Create "uuid-2" 0)
             (mkRequest POST "/api/tasks" (Some (CreateBody "Buy milk" "Monday"))));
      [|reflexivity|exact I|].
    + apply (reach_ui _ sample_one); [apply reachable_sample_one|apply ui_input_new].
    + split; intros x Hx; [split; apply not_elem_of_nil|apply not_elem_of_nil].
  - exists (mkDay "Monday" [0] "  Buy milk " "#FFF4E6"). split; [reflexivity|].
    apply list_elem_of_here.
  - split; intros x Hx; [split; apply not_elem_of_nil|discriminate Hx].
Qed.

Lemma each_id_in_exactly_one_bucket_witness :
  all_ids sample_overlap = ["43"; "42"]%string /\
  NoDup (all_ids sample_overlap) /\
  (forall x, x ∈ all_ids sample_overlap <-> x ∈ ["42"; "43"]%string).
Proof.
  split; [reflexivity|].
  exact (each_id_in_exactly_one_bucket initial_state sample_overlap []
           ["42"; "43"]%string
           allocated_initial (NoDup_nil_2 : NoDup (all_ids initial_state))
           reachable_sample_overlap).
Defined.

(** C1 as stated fails: the code holds no request back. Two moves of task
    "42" are called on the same board, to Tuesday and to Wednesday, before
    either is confirmed; each sends its request and each is confirmed. The
    first response takes the task out of Monday and pushes a copy to
    Tuesday; the second finds nothing to take out and pushes a copy to
    Wednesday: the id "42" is stored in two buckets. *)
Lemma overlapping_moves_counterexample :
  let a1 := moveTask 0 0 1 sample_one in
  let a2 := moveTask 0 0 2 (state_at_call a1) in
  request_of a1 = Some (mkRequest PUT "/api/tasks/42" (Some (DayBody "Tuesday"))) /\
  request_of a2 = Some (mkRequest PUT "/api/tasks/42" (Some (DayBody "Wednesday"))) /\
  sample_two_moves = resume a2 (HttpOk None) (resume a1 (HttpOk None) (state_at_call a2)) /\
  all_ids sample_one = ["42"]%string /\
  stored sample_two_moves
  = [[]; [("42", "Call Bob", false)]; [("42", "Call Bob", false)];
     []; []; []; []; []]%string /\
  all_ids sample_two_moves = ["42"; "42"]%string /\
  ~ NoDup (all_ids sample_two_moves).
Proof.
  repeat split. intros H. apply NoDup_cons in H as [H _].
  apply H, list_elem_of_here.
Qed.

End Runs.

(** * Further properties of the code *)

(** ** Loading *)

Section Loading.

Lemma load_day_board (uuid : nat -> string) (i : nat) (res : GetResponse)
      (s : State) :
  allocated s ->
  board (load_day uuid i res s) = alter (loaded uuid res) i (board s) /\
  allocated (load_day uuid i res s).
Proof.
  intros Ha. destruct res as [| |[payload|]].
  - split; [|now apply assign_tasks_allocated].
    unfold load_day. rewrite assign_tasks_board by done.
    symmetry. apply (alter_const_insert (@nil Task)).
  - split; [|done]. symmetry. now apply list_alter_id.
  - split; [|now apply assign_tasks_allocated].
    unfold load_day. rewrite assign_tasks_board by done.
    symmetry. apply (alter_const_insert (imap (fun k row => task_of_row (uuid k) row) payload)).
  - split; [|now apply assign_tasks_allocated].
    unfold load_day. rewrite assign_tasks_board by done.
    symmetry. apply (alter_const_insert (@nil Task)).
Qed.

(** X1. One iteration of the loading loop, on a board whose references are
    allocated: a non-success status leaves the whole state as it is (the
    bucket is not emptied); a network error or an unreadable body empties
    the bucket of that day; a readable array replaces the bucket by one task
    per row, in order, with the row's id (or the generated one), its text
    (or the empty string), [Boolean(completed)] and idle transient fields.
    No other bucket changes in any case. *)
Theorem load_day_effect (uuid : nat -> string) (i : nat) (s : State) :
  allocated s ->
  load_day uuid i GetHttpError s = s /\
  board (load_day uuid i GetNetworkError s) = <[i:=[]]> (board s) /\
  board (load_day uuid i (GetOk None) s) = <[i:=[]]> (board s) /\
  (forall payload,
      board (load_day uuid i (GetOk (Some payload)) s)
      = <[i:=imap (fun k row => task_of_row (uuid k) row) payload]> (board s)) /\
  (forall res j, i <> j -> board (load_day uuid i res s) !! j = board s !! j).
Proof.
  intros Ha. split; [done|].
  split; [now apply assign_tasks_board|]. split; [now apply assign_tasks_board|].
  split; [intros payload; now apply assign_tasks_board|].
  intros res j Hij. rewrite (proj1 (load_day_board uuid i res s Ha)).
  now apply list_lookup_alter_ne.
Qed.

Lemma allocated_Forall (s : State) :
  Forall (Forall (fun l => l < length (heap s))) (refs s) -> allocated s.
Proof.
  intros H ts l Hts Hl. rewrite Forall_forall in H.
  specialize (H ts Hts). rewrite Forall_forall in H. now apply H.
Qed.

Lemma allocated_sample_one : allocated sample_one.
Proof. apply allocated_Forall. vm_compute. repeat constructor. Qed.

Lemma allocated_sample_two : allocated sample_two.
Proof. apply allocated_Forall. vm_compute. repeat constructor. Qed.

Lemma load_day_effect_witness :
  board (load_day (fun _ => "uuid-9"%string) 0
           (GetOk (Some [mkRow (Some "1"%string) (Some "Buy milk"%string) (JBool false)]))
           sample_one)
  = [fresh_task "1" "Buy milk" false] :: replicate 7 [] /\
  board (load_day (fun _ => "uuid-9"%string) 1 GetNetworkError sample_one)
  = board sample_one.
Proof.
  destruct (load_day_effect (fun _ => "uuid-9"%string) 0 sample_one allocated_sample_one)
    as (_ & _ & _ & H & _).
  destruct (load_day_effect (fun _ => "uuid-9"%string) 1 sample_one allocated_sample_one)
    as (_ & H' & _).
  split; [exact (H _)|exact H'].
Defined.

Lemma foldl_load_day_board (uuid : nat -> nat -> string) (responses : nat -> GetResponse)
      (indices : list nat) (s : State) :
  allocated s ->
  let step s i := load_day (uuid i) i (responses i) s in
  board (foldl step s indices)
  = foldl (fun b i => alter (loaded (uuid i) (responses i)) i b) (board s) indices /\
  allocated (foldl step s indices).
Proof.
  intros Ha step. revert s Ha. induction indices as [|i indices IH]; intros s Ha; [done|].
  simpl. destruct (load_day_board (uuid i) i (responses i) s Ha) as [Hb Ha'].
  destruct (IH _ Ha') as [IHb IHa]. split; [|exact IHa].
  unfold step at 2. now rewrite IHb, Hb.
Qed.

(** X2. [onMount] on the initial board: afterwards bucket [i] holds what the
    response for day [i] gives (one task per row of a readable array, in
    order; nothing after a failure), whatever the responses for the other
    days are, and every reference is allocated. *)
Theorem onMount_board (uuid : nat -> nat -> string) (responses : nat -> GetResponse) :
  let s := onMount uuid responses initial_state in
  board s = (fun i => loaded (uuid i) (responses i) []) <$> seq 0 8 /\
  allocated s.
Proof.
  destruct (foldl_load_day_board uuid responses (seq 0 8) initial_state
              allocated_initial) as [Hb Ha].
  split; [|exact Ha]. unfold onMount.
  change (seq 0 (length (days initial_state))) with (seq 0 8).
  rewrite Hb. reflexivity.
Qed.

End Loading.

(** ** What a confirmed create, move and delete do to the board *)

Section ConfirmedOperations.

Implicit Types (s : State) (d : Day) (t : Task).

Lemma alter_lookup_insert {A} (f : A -> A) (i : nat) (l : list A) (x : A) :
  l !! i = Some x -> alter f i l = <[i:=f x]> l.
Proof.
  revert i. induction l as [|y l IH]; intros [|i] H; simpl in *; [done|done| |].
  - now injection H as ->.
  - f_equal. now apply IH.
Qed.

Lemma board_lookup s (i : nat) d :
  days s !! i = Some d -> board s !! i = Some (bucket s d).
Proof. intros H. unfold board. now rewrite list_lookup_fmap, H. Qed.

(** Assignments to fields of a day other than [tasks] do not show in the
    board. *)
Lemma board_alter_keep s (f : Day -> Day) (i : nat) :
  (forall d, tasks (f d) = tasks d) ->
  board (set_days (alter f i (days s)) s) = board s.
Proof.
  intros Hf. unfold board. simpl. apply list_eq. intros j.
  rewrite !list_lookup_fmap, list_lookup_alter. case_decide as Hij; [subst j|done].
  destruct (days s !! i); [|done]. simpl. f_equal. unfold bucket. now rewrite Hf.
Qed.

Lemma board_push_task s (i : nat) (o : Task) :
  allocated s ->
  board (push_task i o s) = alter (fun b => b ++ [o]) i (board s).
Proof.
  intros Ha. unfold push_task.
  apply (board_alter s i (fun ts => ts ++ [length (heap s)]) [o]
                     (fun b => b ++ [o])); [done|].
  intros d Hd. rewrite fmap_app, bucket_heap_app by done. simpl.
  now rewrite list_lookup_total_middle.
Qed.

Lemma fmap_filter_get s (tid : string) (ts : list loc) :
  (fun l => get l s) <$> filter (fun l => id (get l s) <> tid) ts
  = filter (fun x => id x <> tid) ((fun l => get l s) <$> ts).
Proof.
  induction ts as [|l ts IH]; [done|].
  rewrite fmap_cons, !filter_cons. case_decide; [|done].
  now rewrite fmap_cons, IH.
Qed.

Lemma board_remove_id s (i : nat) (tid : string) :
  board (remove_id i tid s) = alter (filter (fun x => id x <> tid)) i (board s).
Proof.
  unfold board, remove_id. simpl. apply list_eq. intros j.
  rewrite list_lookup_fmap, !list_lookup_alter, !list_lookup_fmap.
  case_decide as Hij; [subst j|done].
  destruct (days s !! i) as [d|]; [|done]. simpl. f_equal.
  exact (fmap_filter_get s tid (tasks d)).
Qed.

(** X3. A confirmed create on a board whose references are allocated: the
    request carries the trimmed description and the day's name; the new
    task, with the store's id (or the generated one when the response has
    none), the trimmed description, [completed = false] and idle transient
    fields, is appended at the end of that day's bucket; the day's input
    field is cleared; no other day changes. A success status with an
    unreadable body adds nothing and keeps the input. *)
Theorem confirmed_create_appends (uuid : string) (i : nat) (s : State) (d : Day)
        (req : Request) (json_id : option string) :
  allocated s ->
  days s !! i = Some d ->
  request_of (addTask uuid i s) = Some req ->
  let desc := Str.trim (newTaskDescription d) in
  let s' := run (addTask uuid i) (HttpOk (Some json_id)) s in
  req = mkRequest POST "/api/tasks" (Some (CreateBody desc (name d))) /\
  board s' = <[i:=bucket s d ++ [fresh_task (default uuid json_id) desc false]]> (board s) /\
  days s' !! i = Some (mkDay (name d) (tasks d ++ [length (heap s)]) "" (dayBgColor d)) /\
  (forall j, i <> j -> days s' !! j = days s !! j) /\
  run (addTask uuid i) (HttpOk None) s = s.
Proof.
  intros Ha Hd Hreq desc s'. subst s'. unfold run, addTask in *. rewrite Hd in *.
  destruct (decide _); [done|].
  cbn [request_of state_at_call resume] in *. injection Hreq as <-.
  split; [done|]. split; [|split; [|split; [|done]]].
  - unfold addTask_ok. cbv zeta.
    rewrite board_alter_keep by done.
    rewrite board_push_task by done.
    exact (alter_lookup_insert
             (fun b => b ++ [fresh_task (default uuid json_id) desc false])
             i (board s) (bucket s d) (board_lookup s i d Hd)).
  - exact (proj2 (addTask_ok_spec uuid i desc json_id s d Hd)).
  - intros j Hij. simpl. now rewrite !list_lookup_alter_ne.
Qed.

Lemma confirmed_create_appends_witness :
  board (run (addTask "uuid-2" 0) (HttpOk (Some None))
             (input_newTaskDescription 0 "  Buy milk " sample_one))
  = [fresh_task "42" "Call Bob" false; fresh_task "uuid-2" "Buy milk" false]
      :: replicate 7 [].
Proof.
  assert (Ha : allocated (input_newTaskDescription 0 "  Buy milk " sample_one))
    by (apply allocated_Forall; vm_compute; repeat constructor).
  exact (proj1 (proj2 (confirmed_create_appends "uuid-2" 0
                         (input_newTaskDescription 0 "  Buy milk " sample_one)
                         (mkDay "Monday" [0] "  Buy milk " "#FFF4E6") _ None
                         Ha eq_refl eq_refl))).
Defined.

(** X4. A confirmed move, for a task object of the store and two distinct
    days of an allocated board: the source bucket loses every task with the
    moved task's id and keeps the others in order; the destination bucket
    gains, at its end, a new task with the same id, description and
    completed flag and idle transient fields; no other bucket changes. *)
Theorem confirmed_move_relocates (fromDayIndex : nat) (task : loc) (toDayIndex : nat)
        (s : State) (t : Task) (dfrom dto : Day) (req : Request) json :
  allocated s ->
  heap s !! task = Some t ->
  days s !! fromDayIndex = Some dfrom ->
  days s !! toDayIndex = Some dto ->
  request_of (moveTask fromDayIndex task toDayIndex s) = Some req ->
  let s' := run (moveTask fromDayIndex task toDayIndex) (HttpOk json) s in
  req = mkRequest PUT ("/api/tasks/" ++ id t) (Some (DayBody (name dto))) /\
  board s'
  = <[toDayIndex:=bucket s dto ++ [fresh_task (id t) (description t) (completed t)]]>
      (<[fromDayIndex:=filter (fun x => id x <> id t) (bucket s dfrom)]> (board s)).
Proof.
  intros Ha Ht Hf Hto Hreq s'. subst s'. unfold run, moveTask in *.
  destruct (decide _) as [|Hne]; [done|]. rewrite Hto in *.
  cbn [request_of state_at_call resume] in *.
  rewrite (get_allocated _ _ _ Ht) in Hreq. injection Hreq as <-.
  split; [done|].
  destruct (moveTask_ok_spec fromDayIndex task toDayIndex s t dfrom dto Hne Ht Hf Hto)
    as (-> & _).
  rewrite board_push_task by (now apply remove_id_allocated).
  rewrite board_remove_id.
  rewrite (alter_lookup_insert (filter (fun x => id x <> id t)) fromDayIndex
             (board s) (bucket s dfrom) (board_lookup s _ _ Hf)).
  apply (alter_lookup_insert
           (fun b => b ++ [fresh_task (id t) (description t) (completed t)])
           toDayIndex _ (bucket s dto)).
  rewrite list_lookup_insert_ne by done. now apply board_lookup.
Qed.

Lemma confirmed_move_relocates_witness :
  board (run (moveTask 0 0 1) (HttpOk None) sample_two)
  = [fresh_task "43" "Buy milk" false] :: [fresh_task "42" "Call Bob" false]
      :: replicate 6 [].
Proof.
  exact (proj2 (confirmed_move_relocates 0 0 1 sample_two (get 0 sample_two)
                  (mkDay "Monday" [0; 1] "" "#FFF4E6") (mkDay "Tuesday" [] "" "#FFE8CC")
                  _ None allocated_sample_two eq_refl eq_refl eq_refl eq_refl)).
Defined.

(** X7. A confirmed delete: for a day of the board, bucket [dayIndex] loses
    every task with that id and keeps the others in order, no other bucket
    and no task object changes, and the id's entry leaves the hover map
    while the other entries stay. For an index outside the board the state
    is left as it is, hover map included. *)
Theorem confirmed_delete_removes_by_id (dayIndex : nat) (taskId : string)
        (s : State) json :
  let a := deleteTask dayIndex taskId s in
  let s' := run (deleteTask dayIndex taskId) (HttpOk json) s in
  request_of a = Some (mkRequest DELETE ("/api/tasks/" ++ taskId) None) /\
  board s' = alter (filter (fun x => id x <> taskId)) dayIndex (board s) /\
  heap s' = heap s /\
  (forall d, days s !! dayIndex = Some d ->
     board s' !! dayIndex = Some (filter (fun x => id x <> taskId) (bucket s d)) /\
     taskHoverState s' !! taskId = None /\
     forall other, other <> taskId ->
       taskHoverState s' !! other = taskHoverState s !! other) /\
  (days s !! dayIndex = None -> s' = s).
Proof.
  intros a s'. subst a s'. unfold run, deleteTask.
  cbn [request_of state_at_call resume]. unfold deleteTask_ok.
  split; [done|].
  destruct (days s !! dayIndex) as [d|] eqn:Hd.
  - split; [apply board_remove_id|]. split; [done|]. split; [|done].
    intros d' [= <-]. split.
    + change (board (set_taskHoverState _ (remove_id dayIndex taskId s)))
        with (board (remove_id dayIndex taskId s)).
      rewrite board_remove_id, list_lookup_alter_eq.
      now rewrite (board_lookup s _ _ Hd).
    + simpl. split; [apply lookup_delete_eq|].
      intros other Ho. now apply lookup_delete_ne.
  - split; [|done]. symmetry. apply alter_absent.
    unfold board. now rewrite list_lookup_fmap, Hd.
Qed.

End ConfirmedOperations.

(** ** Toggle, rename and the keys of the edit field *)

Section ToggleRename.

Implicit Types (s : State) (d : Day) (t : Task).

Lemma find_first {A} (f : A -> bool) (pre post : list A) (x : A) :
  Forall (fun y => f y = false) pre -> f x = true ->
  List.find f (pre ++ x :: post) = Some x.
Proof.
  intros Hpre Hx. induction Hpre as [|y pre Hy _ IH]; simpl.
  - now rewrite Hx.
  - now rewrite Hy.
Qed.

Lemma find_absent {A} (f : A -> bool) (l : list A) :
  Forall (fun y => f y = false) l -> List.find f l = None.
Proof. induction 1 as [|y l Hy _ IH]; simpl; [done|]. now rewrite Hy. Qed.

Lemma find_same {A} (f g : A -> bool) (l : list A) :
  (forall x, f x = g x) -> List.find f l = List.find g l.
Proof. intros H. induction l as [|y l IH]; simpl; [done|]. now rewrite H, IH. Qed.

Lemma set_heap_same s : set_heap (heap s) s = s.
Proof. now destruct s. Qed.

Lemma mutate_insert (f : Task -> Task) (task : loc) s t :
  heap s !! task = Some t -> mutate f task s = set_heap (<[task:=f t]> (heap s)) s.
Proof. intros H. unfold mutate. f_equal. now apply alter_lookup_insert. Qed.

(** X6. [toggleTask] looks the id up in the given bucket only. When no task
    of the bucket has the id, it returns without a request and changes
    nothing. Otherwise it takes the first task of the bucket with that id:
    the request carries the negated flag, with the time stamp exactly when
    the new flag is true, and the confirmed response changes that one
    object's [completed] flag and nothing else. *)
Theorem confirmed_toggle_flips_first_match (now : string) (i : nat) (taskId : string)
        (s : State) (d : Day) :
  days s !! i = Some d ->
  (Forall (fun l => id (get l s) <> taskId) (tasks d) ->
   toggleTask now i taskId s = Returned s) /\
  (forall pre l post t json,
      tasks d = pre ++ l :: post ->
      Forall (fun l' => id (get l' s) <> taskId) pre ->
      heap s !! l = Some t -> id t = taskId ->
      let c := negb (completed t) in
      request_of (toggleTask now i taskId s)
      = Some (mkRequest PUT ("/api/tasks/" ++ taskId)
                (Some (CompletedBody c (if c then Some now else None)))) /\
      run (toggleTask now i taskId) (HttpOk json) s
      = set_heap (<[l:=set_completed c t]> (heap s)) s).
Proof.
  intros Hd. split.
  - intros Hall. unfold toggleTask. rewrite Hd, find_absent; [done|].
    eapply Forall_impl; [exact Hall|]. intros l Hl. simpl.
    now apply bool_decide_eq_false.
  - intros pre l post t json Hts Hpre Ht Hid c.
    unfold run, toggleTask. rewrite Hd, Hts.
    rewrite (find_first _ pre post l).
    + cbn [request_of state_at_call resume].
      rewrite (get_allocated _ _ _ Ht). split; [done|]. now apply mutate_insert.
    + eapply Forall_impl; [exact Hpre|]. intros l' Hl'. simpl.
      now apply bool_decide_eq_false.
    + apply bool_decide_eq_true. now rewrite (get_allocated _ _ _ Ht).
Qed.

Lemma confirmed_toggle_flips_first_match_witness :
  toggleTask "2026-01-01T00:00:00.000Z" 1 "42" sample_two = Returned sample_two /\
  completed <$> heap (run (toggleTask "2026-01-01T00:00:00.000Z" 0 "43") (HttpOk None)
                          sample_two)
  = [false; true].
Proof.
  destruct (confirmed_toggle_flips_first_match "2026-01-01T00:00:00.000Z" 1 "42"
              sample_two (mkDay "Tuesday" [] "" "#FFE8CC") eq_refl) as [H1 _].
  destruct (confirmed_toggle_flips_first_match "2026-01-01T00:00:00.000Z" 0 "43"
              sample_two (mkDay "Monday" [0; 1] "" "#FFF4E6") eq_refl) as [_ H2].
  split; [exact (H1 (Forall_nil_2 _))|].
  destruct (H2 [0] 1 [] (get 1 sample_two) None eq_refl) as [_ H3];
    [repeat constructor; discriminate|reflexivity|reflexivity|].
  now rewrite H3.
Defined.

(** X5. On an allocated board, a confirmed toggle followed by a second
    confirmed toggle of the same id in the same bucket gives back exactly
    the state before the first. *)
Theorem toggle_twice_restores (now now' : string) (i : nat) (taskId : string)
        (s : State) (req : Request) json json' :
  allocated s ->
  request_of (toggleTask now i taskId s) = Some req ->
  run (toggleTask now' i taskId) (HttpOk json')
      (run (toggleTask now i taskId) (HttpOk json) s) = s.
Proof.
  intros Ha Hreq.
  assert (Hshape : exists d l t,
             days s !! i = Some d /\ heap s !! l = Some t /\
             List.find (fun l => bool_decide (id (get l s) = taskId)) (tasks d) = Some l).
  { unfold toggleTask in Hreq.
    destruct (days s !! i) as [d|] eqn:Hd; [|done].
    destruct (List.find _ (tasks d)) as [l|] eqn:Hfind; [|done].
    destruct (find_some _ _ Hfind) as [Hin _].
    assert (Hlt : l < length (heap s)).
    { apply (allocated_day s d); [done| |now apply list_elem_of_In].
      apply list_elem_of_lookup. eauto. }
    destruct (lookup_lt_is_Some_2 _ _ Hlt) as [t Ht]. eauto 7. }
  destruct Hshape as (d & l & t & Hd & Ht & Hfind). clear Hreq.
  pose proof (get_allocated _ _ _ Ht) as Hg.
  assert (H1 : run (toggleTask now i taskId) (HttpOk json) s
               = mutate (set_completed (negb (completed t))) l s).
  { unfold run, toggleTask. rewrite Hd, Hfind.
    cbn [state_at_call resume]. now rewrite Hg. }
  rewrite H1. clear H1.
  set (s1 := mutate (set_completed (negb (completed t))) l s).
  assert (Hfind1 : List.find (fun l => bool_decide (id (get l s1) = taskId)) (tasks d)
                   = Some l).
  { rewrite <- Hfind. apply find_same. intros l'. unfold s1.
    now rewrite (proj_get_mutate id). }
  assert (Hg1 : get l s1 = set_completed (negb (completed t)) t)
    by (unfold s1; now apply get_mutate_eq).
  unfold run, toggleTask. change (days s1) with (days s). rewrite Hd, Hfind1.
  cbn [state_at_call resume]. rewrite Hg1. unfold s1, mutate. simpl.
  rewrite list_alter_alter_eq.
  rewrite (alter_lookup_insert _ l (heap s) t Ht). simpl.
  rewrite negb_involutive.
  replace (set_completed (completed t) (set_completed (negb (completed t)) t))
    with t by (now destruct t).
  rewrite list_insert_id by done. clear. now destruct s.
Qed.

Lemma toggle_twice_restores_witness :
  run (toggleTask "t2" 0 "42") (HttpOk None)
      (run (toggleTask "t1" 0 "42") (HttpOk None) sample_two) = sample_two.
Proof.
  exact (toggle_twice_restores "t1" "t2" 0 "42" sample_two _ None None
           allocated_sample_two eq_refl).
Defined.

End ToggleRename.

(** ** Editing a description *)

Section Editing.

Implicit Types (s : State) (t : Task).

(** X8. Start editing a task object of the store, type [text] and confirm:
    when [text] trims to a non-empty string the request is
    PUT /api/tasks/<id> with the trimmed text, and after the confirmed
    response the task's description is the trimmed text, edit mode is left
    ([isEditing = false], [editingText = '']), every other field of the task
    and every other object and bucket is as before editing started. *)
Theorem confirmed_rename_sets_trimmed_text (task : loc) (text : string)
        (s : State) (t : Task) json :
  heap s !! task = Some t ->
  Str.trim text <> ""%string ->
  let s1 := input_editingText task text (startEditingTask task s) in
  request_of (saveTaskEdit task s1)
  = Some (mkRequest PUT ("/api/tasks/" ++ id t) (Some (TextBody (Str.trim text)))) /\
  run (saveTaskEdit task) (HttpOk json) s1
  = set_heap (<[task:=set_editingText (Some ""%string)
                        (set_isEditing (Some false)
                           (set_description (Str.trim text) t))]> (heap s)) s.
Proof.
  intros Ht Htrim s1.
  assert (Hg : get task s1
               = set_editingText (Some text)
                   (set_editingText (Some (description t)) (set_isEditing (Some true) t))).
  { unfold s1, input_editingText, startEditingTask. eval_get Ht. reflexivity. }
  unfold run, saveTaskEdit. rewrite Hg.
  cbn [editingText set_editingText set_isEditing id].
  destruct (decide (Str.trim text = ""%string)); [done|].
  cbn [request_of state_at_call resume].
  split; [done|].
  unfold s1, leave_edit, input_editingText, startEditingTask, mutate, set_heap.
  simpl. f_equal. rewrite !list_alter_alter_eq.
  now rewrite (alter_lookup_insert _ task (heap s) t Ht).
Qed.

Lemma confirmed_rename_sets_trimmed_text_witness :
  description <$> heap (run (saveTaskEdit 0) (HttpOk None)
                            (input_editingText 0 " Call Bobby  "
                               (startEditingTask 0 sample_two)))
  = ["Call Bobby"; "Buy milk"]%string.
Proof.
  rewrite (proj2 (confirmed_rename_sets_trimmed_text 0 " Call Bobby  " sample_two
                    (get 0 sample_two) None eq_refl
                    (fun H => eq_ind "Call Bobby"%string
                                (fun x => match x with EmptyString => False | _ => True end)
                                I _ H))).
  reflexivity.
Defined.

(** X9. In the edit field of a task object of the store, Escape issues no
    request: it leaves edit mode and drops the typed text, and the task's
    description and every other field are as before editing started. Enter
    is [saveTaskEdit]; any other key does nothing. *)
Theorem edit_keys (e : KeyboardEvent) (task : loc) (text : string)
        (s : State) (t : Task) :
  heap s !! task = Some t ->
  let s1 := input_editingText task text (startEditingTask task s) in
  (key e = "Escape"%string ->
   handleTaskEditKeydown e task s1
   = Returned (set_heap (<[task:=set_editingText (Some ""%string)
                                   (set_isEditing (Some false) t)]> (heap s)) s)) /\
  (key e = "Enter"%string ->
   handleTaskEditKeydown e task s1 = saveTaskEdit task s1) /\
  (key e <> "Enter"%string -> key e <> "Escape"%string ->
   handleTaskEditKeydown e task s1 = Returned s1).
Proof.
  intros Ht s1. unfold handleTaskEditKeydown. split; [|split].
  - intros He. rewrite He. rewrite decide_False by done. rewrite decide_True by done.
    f_equal.
    unfold s1, cancelTaskEdit, leave_edit, input_editingText, startEditingTask,
      mutate, set_heap.
    simpl. f_equal. rewrite !list_alter_alter_eq.
    now rewrite (alter_lookup_insert _ task (heap s) t Ht).
  - intros He. now rewrite He, decide_True.
  - intros H1 H2. now rewrite !decide_False.
Qed.

Lemma edit_keys_witness :
  handleTaskEditKeydown (mkKeyboardEvent "Escape") 0
    (input_editingText 0 "Call Bobby" (startEditingTask 0 sample_one))
  = Returned sample_one.
Proof.
  rewrite (proj1 (edit_keys (mkKeyboardEvent "Escape") 0 "Call Bobby" sample_one
                    (get 0 sample_one) eq_refl) eq_refl).
  reflexivity.
Defined.

End Editing.

(** ** More on gestures *)

Section GestureLifeCycle.

Local Open Scope float_scope.

Implicit Types (s : State) (t : Task) (e : TouchEvent).

(** X10. While a task is being edited, no sequence of touch start, move and
    end events on it changes anything. *)
Theorem editing_suppresses_gestures (task : loc) (dayIndex : nat)
        (evs : list GestureEvent) (s : State) :
  truthy (isEditing (get task s)) = true ->
  gesture task dayIndex evs s = s.
Proof.
  intros He. induction evs as [|ev evs IH]; [done|]. simpl.
  assert (Hev : dispatch task dayIndex ev s = s); [|now rewrite Hev].
  destruct ev as [e|e|e]; simpl.
  - unfold handleTouchStart. now rewrite He.
  - unfold handleTouchMove. rewrite He. now rewrite orb_true_r.
  - unfold handleTouchEnd. rewrite He. now rewrite orb_true_r.
Qed.

Lemma editing_suppresses_gestures_witness :
  gesture 0 0 (scenario4_moves ++ [TouchEnd (touch_at 130 0)])
          (startEditingTask 0 sample_one)
  = startEditingTask 0 sample_one.
Proof.
  exact (editing_suppresses_gestures 0 0 _ (startEditingTask 0 sample_one) eq_refl).
Defined.

(** X11. [handleTouchStart] keeps the stored offset and [handleTouchEnd]
    classifies by it without asking whether the gesture ever locked: a tap
    (start, then end, no move) on a task that is not being edited and whose
    stored offset is at least [deleteThreshold] sets the offset to 300 and
    schedules [deleteTask] for it. *)
Theorem tap_reclassifies_stored_offset (e e' : TouchEvent) (touch : Touch)
        (task : loc) (dayIndex : nat) (s : State) (t : Task) :
  heap s !! task = Some t ->
  truthy (isEditing t) = false ->
  touches e !! 0%nat = Some touch ->
  (deleteThreshold <=? Number.or_zero (swipeX t)) = true ->
  let s' := gesture task dayIndex [TouchStart e; TouchEnd e'] s in
  isSwiping s' = false /\
  swipeX (get task s') = Some 300 /\
  timers s' = timers s ++ [mkTimer 200 dayIndex task].
Proof.
  intros Ht He Hto Hd s'. unfold s', gesture. simpl.
  unfold handleTouchStart. rewrite (get_allocated _ _ _ Ht), He, Hto. simpl.
  set (s1 := mutate (set_isSwipeActive (Some true)) task
               (set_isSwiping false (set_touchStart (clientX touch) (clientY touch) s))).
  assert (Ht1 : heap s1 !! task = Some (set_isSwipeActive (Some true) t))
    by (unfold s1, mutate; simpl; now rewrite list_lookup_alter_eq, Ht).
  rewrite (handleTouchEnd_active e' task dayIndex s1 _ Ht1) by done.
  simpl swipeX. rewrite Hd.
  repeat split. subst s1. eval_get Ht. reflexivity.
Qed.

Lemma tap_reclassifies_stored_offset_witness :
  timers (gesture 0 0 [TouchStart (touch_at 5 5); TouchEnd (touch_at 5 5)]
                  sample_pending_delete)
  = [mkTimer 200 0 0; mkTimer 200 0 0].
Proof.
  exact (proj2 (proj2 (tap_reclassifies_stored_offset
                         (touch_at 5 5) (touch_at 5 5) (mkTouch 5 5) 0 0
                         sample_pending_delete (get 0%nat sample_pending_delete)
                         eq_refl eq_refl eq_refl eq_refl))).
Defined.

Lemma inactive_ignores (task : loc) (dayIndex : nat) (ev : GestureEvent) (s : State) :
  truthy (isSwipeActive (get task s)) = false -> not_start ev ->
  dispatch task dayIndex ev s = s.
Proof.
  intros Hi Hev. destruct ev as [e|e|e]; [done| |]; simpl.
  - unfold handleTouchMove. now rewrite Hi.
  - unfold handleTouchEnd. now rewrite Hi.
Qed.

Lemma handleTouchEnd_inactive e (task : loc) (dayIndex : nat) (s : State) :
  truthy (isEditing (get task s)) = false ->
  truthy (isSwipeActive (get task (handleTouchEnd e task dayIndex s))) = false.
Proof.
  intros He. unfold handleTouchEnd.
  destruct (truthy (isSwipeActive (get task s))) eqn:Ha; [|exact Ha].
  rewrite He. simpl negb. simpl orb. cbv iota.
  destruct (heap s !! task) as [t|] eqn:Ht.
  - destruct (deleteThreshold <=? _); [|destruct (_ <=? moveThreshold)];
      eval_get Ht; reflexivity.
  - exfalso. unfold get in Ha. rewrite list_lookup_total_alt, Ht in Ha. discriminate Ha.
Qed.

(** X12. Once [handleTouchEnd] has run on a task that is not being edited,
    the task is inactive: move and end events on it change nothing until
    the next touch start. *)
Theorem events_after_end_ignored (e : TouchEvent) (task : loc) (dayIndex : nat)
        (evs : list GestureEvent) (s : State) :
  truthy (isEditing (get task s)) = false ->
  Forall not_start evs ->
  let s' := handleTouchEnd e task dayIndex s in
  gesture task dayIndex evs s' = s'.
Proof.
  intros He Hevs s'.
  pose proof (handleTouchEnd_inactive e task dayIndex s He) as Hi. fold s' in Hi.
  induction Hevs as [|ev evs Hev _ IH]; [done|]. simpl.
  now rewrite (inactive_ignores task dayIndex ev s' Hi Hev).
Qed.

Lemma events_after_end_ignored_witness :
  gesture 0 0 [TouchMove (touch_at 10 0); TouchEnd (touch_at 10 0)] sample_pending_delete
  = sample_pending_delete.
Proof.
  exact (events_after_end_ignored (touch_at 130 0) 0 0
           [TouchMove (touch_at 10 0); TouchEnd (touch_at 10 0)]
           (gesture 0 0 scenario4_moves sample_one) eq_refl
           (Forall_cons_2 not_start (TouchMove (touch_at 10 0)) _ I
              (Forall_cons_2 not_start (TouchEnd (touch_at 10 0)) _ I
                 (Forall_nil_2 _)))).
Defined.

End GestureLifeCycle.

(** ** The theme toggle *)

Section ThemeToggle.

Import Layout.

(** X13. After the layout has mounted, any number [n] of toggles keeps the
    component's flag equal to the presence of the ['dark'] class on the
    root element; the flag is the mounted one flipped [n] times; and once a
    toggle has happened the stored theme names the current flag, while
    before the first toggle the store is not written. *)
Theorem theme_in_sync (t : Theme) (n : nat) :
  let t' := Nat.iter n toggleTheme (onMount t) in
  themeIsDark t' = root_dark t' /\
  themeIsDark t' = xorb (Nat.odd n) (root_dark t) /\
  stored_theme t'
  = match n with
    | O => stored_theme t
    | S _ => Some (if themeIsDark t' then "dark" else "light")%string
    end.
Proof.
  induction n as [|n (IH1 & IH2 & IH3)]; [done|].
  change (Nat.iter (S n) toggleTheme (onMount t))
    with (toggleTheme (Nat.iter n toggleTheme (onMount t))).
  set (u := Nat.iter n toggleTheme (onMount t)) in *.
  split; [done|]. split; [|done].
  change (themeIsDark (toggleTheme u)) with (negb (themeIsDark u)).
  rewrite IH2, Nat.odd_succ, <- Nat.negb_odd. now destruct (Nat.odd n), (root_dark t).
Qed.

End ThemeToggle.
